(** * postgresql-interval: the [Interval] class of [src/interval.ts]

    A shallow embedding of the value model, the accumulator, the parser
    chain, the normalizer, the arithmetic and the formatter of the
    TypeScript class [Interval], followed by the properties of its
    specification.

    Numbers.  A JavaScript [number] is modelled by an exact rational
    ([Q]); [===] on numbers is [Qeq].  The values that the statements
    below evaluate are integers far below 2^53 and decimal fractions of
    a few digits; on these the sums, the products by the unit constants
    and the results of [Math.round] and [Math.floor] are those of the
    IEEE doubles of the host.  Overflow, NaN and the two zeros are not
    modelled.  A sum of decimal fractions is exact here and rounded in
    a double: the statements about the normalizer and the arithmetic on
    all stored values are therefore stated on fields that hold whole
    numbers, where the operations of the class are exact in both.

    Strings.  A JavaScript string is modelled by [string] (a list of
    8-bit characters); the regular expressions of the source only look
    for ASCII digits, ASCII letters, ASCII punctuation and white space. *)

From Stdlib Require Import ZArith QArith Qround Qabs Bool List Ascii String Lia.
Import ListNotations.

Local Open Scope Z_scope.
Local Open Scope Q_scope.

(** ** JavaScript primitives used by the class *)

Module JS.

Definition Number := Q.

(** [Math.floor]. *)
Definition Math_floor (x : Number) : Number := inject_Z (Qfloor x).

(** [Math.round]: the integer closest to [x]; of two equally close
    integers, the one towards plus infinity (ECMA-262, Math.round). *)
Definition Math_round (x : Number) : Number := inject_Z (Qfloor (x + (1 # 2))).

(** [Math.abs]. *)
Definition Math_abs (x : Number) : Number := Qabs x.

(** [Math.sign]. *)
Definition Math_sign (x : Number) : Number :=
  match Qcompare x 0 with
  | Lt => inject_Z (-1)
  | Eq => 0
  | Gt => 1
  end.

(** Truncation towards zero, the quotient behind the [%] operator. *)
Definition trunc (x : Number) : Z :=
  if Qle_bool 0 x then Qfloor x else Qceiling x.

(** [a % b]: the remainder takes the sign of the dividend. *)
Definition rem (a b : Number) : Number := a - b * inject_Z (trunc (a / b)).

(** [a < b], [a > b], [a === b], [a !== b] on numbers. *)
Definition lt (a b : Number) : bool := negb (Qle_bool b a).
Definition gt (a b : Number) : bool := lt b a.
Definition seq (a b : Number) : bool := Qeq_bool a b.
Definition sneq (a b : Number) : bool := negb (Qeq_bool a b).

(** A number that holds an integer value. *)
Definition isInteger (x : Number) : bool := Qeq_bool x (inject_Z (Qfloor x)).

End JS.

Import JS.

(** ** Constants *)

Definition MICROSECONDS_PER_SECOND : Number := inject_Z 1000000.
Definition SECONDS_PER_MINUTE : Number := inject_Z 60.
Definition MINUTES_PER_HOUR : Number := inject_Z 60.
Definition HOURS_PER_DAY : Number := inject_Z 24.
Definition MONTHS_PER_YEAR : Number := inject_Z 12.

Definition MICROSECONDS_PER_MINUTE : Number := MICROSECONDS_PER_SECOND * SECONDS_PER_MINUTE.
Definition MICROSECONDS_PER_HOUR : Number := MICROSECONDS_PER_MINUTE * MINUTES_PER_HOUR.
Definition MICROSECONDS_PER_DAY : Number := MICROSECONDS_PER_HOUR * HOURS_PER_DAY.
Definition MICROSECONDS_PER_MILLISECOND : Number := inject_Z 1000.

(** ** The value model *)

Record IntervalStorage : Type := mkStorage {
  months : Number;
  days : Number;
  microseconds : Number
}.

(** Field-wise [===] of two snapshots (what [equals] and Jest's
    [toEqual] on two snapshots compare). *)
Definition storage_eq (a b : IntervalStorage) : Prop :=
  months a == months b /\ days a == days b /\ microseconds a == microseconds b.

Definition storage_eqb (a b : IntervalStorage) : bool :=
  seq (months a) (months b) && seq (days a) (days b)
  && seq (microseconds a) (microseconds b).

Definition zeroStorage : IntervalStorage := mkStorage 0 0 0.

(** The methods of the class mutate [this.storage]; they are modelled
    as computations in a state monad over [IntervalStorage]. *)
Definition M (A : Type) : Type := IntervalStorage -> A * IntervalStorage.

Definition ret {A : Type} (a : A) : M A := fun st => (a, st).

Definition bind {A B : Type} (m : M A) (k : A -> M B) : M B :=
  fun st => let (a, st') := m st in k a st'.

Definition modify (f : IntervalStorage -> IntervalStorage) : M unit :=
  fun st => (tt, f st).

Definition exec {A : Type} (m : M A) (st : IntervalStorage) : IntervalStorage :=
  snd (m st).

Declare Scope interval_scope.
Delimit Scope interval_scope with interval.
Notation "x <- m ;; k" := (bind m (fun x => k))
  (at level 61, m at next level, right associativity) : interval_scope.
Notation "m ;;; k" := (bind m (fun _ => k))
  (at level 61, right associativity) : interval_scope.
Local Open Scope interval_scope.

(** ** Accumulator *)

Definition negateAllComponents : M unit :=
  modify (fun st => mkStorage (- months st) (- days st) (- microseconds st)).

Definition addMicroseconds (us : Number) : M unit :=
  modify (fun st => mkStorage (months st) (days st) (microseconds st + Math_round us)).

Definition addMonths (n : Number) : M unit :=
  modify (fun st => mkStorage (months st + n) (days st) (microseconds st)).

Definition addDays (n : Number) : M unit :=
  modify (fun st => mkStorage (months st) (days st + n) (microseconds st)).

Definition addTime (hours minutes seconds : Number) : M unit :=
  let totalMicroseconds :=
    hours * MICROSECONDS_PER_HOUR
    + minutes * MICROSECONDS_PER_MINUTE
    + Math_round (seconds * MICROSECONDS_PER_SECOND) in
  modify (fun st => mkStorage (months st) (days st) (microseconds st + totalMicroseconds)).

(** ** Normalizer *)

Definition normalizeMicroseconds (st : IntervalStorage) : Number * Number :=
  let totalDays := Math_floor (microseconds st / MICROSECONDS_PER_DAY) in
  let remainder := rem (microseconds st) MICROSECONDS_PER_DAY in
  if lt (microseconds st) 0 && sneq remainder 0
  then (totalDays - 1, remainder + MICROSECONDS_PER_DAY)
  else (totalDays, remainder).

Definition normalizeStorage (st : IntervalStorage) : IntervalStorage :=
  let (extraDays, normalizedMicros) := normalizeMicroseconds st in
  mkStorage (months st) (days st + extraDays) normalizedMicros.

(** ** Strings and the regular expressions of the parser *)

Local Open Scope string_scope.

Module Str.

Definition isDigit (c : ascii) : bool :=
  let n := nat_of_ascii c in (48 <=? n)%nat && (n <=? 57)%nat.

Definition isUpper (c : ascii) : bool :=
  let n := nat_of_ascii c in (65 <=? n)%nat && (n <=? 90)%nat.

Definition isLower (c : ascii) : bool :=
  let n := nat_of_ascii c in (97 <=? n)%nat && (n <=? 122)%nat.

(** [[a-z]] under the [i] flag. *)
Definition isLetter (c : ascii) : bool := isUpper c || isLower c.

(** [\s] on ASCII: tab, line feed, vertical tab, form feed, carriage
    return, space.  The white space outside ASCII that [\s] also
    matches (no-break space, line separator and the like) is not
    modelled. *)
Definition isWhitespace (c : ascii) : bool :=
  let n := nat_of_ascii c in ((9 <=? n)%nat && (n <=? 13)%nat) || (n =? 32)%nat.

Definition lowerChar (c : ascii) : ascii :=
  if isUpper c then ascii_of_nat (nat_of_ascii c + 32) else c.

Fixpoint toLowerCase (s : string) : string :=
  match s with
  | EmptyString => EmptyString
  | String c r => String (lowerChar c) (toLowerCase r)
  end.

Fixpoint forallb (p : ascii -> bool) (s : string) : bool :=
  match s with
  | EmptyString => true
  | String c r => p c && forallb p r
  end.

Definition isEmpty (s : string) : bool :=
  match s with EmptyString => true | _ => false end.

Fixpoint rev (s : string) : string :=
  match s with
  | EmptyString => EmptyString
  | String c r => rev r ++ String c EmptyString
  end.

Fixpoint trimStart (s : string) : string :=
  match s with
  | EmptyString => EmptyString
  | String c r => if isWhitespace c then trimStart r else s
  end.

Definition trimEnd (s : string) : string := rev (trimStart (rev s)).

(** [s.trim()]. *)
Definition trim (s : string) : string := trimEnd (trimStart s).

(** [s.startsWith(p)]. *)
Definition startsWith (p s : string) : bool := String.prefix p s.

(** [s.slice(1)]. *)
Definition slice1 (s : string) : string :=
  match s with
  | EmptyString => EmptyString
  | String _ r => r
  end.

(** [s.split(/\s+/)]: the pieces between maximal runs of white space;
    a run at either end of [s] leaves an empty piece there. *)
Fixpoint splitFrom (s cur : string) (inRun : bool) : list string :=
  match s with
  | EmptyString => [cur]
  | String c r =>
      if isWhitespace c then
        if inRun then splitFrom r cur true
        else cur :: splitFrom r EmptyString true
      else splitFrom r (cur ++ String c EmptyString) false
  end.

Definition splitWhitespace (s : string) : list string :=
  splitFrom s EmptyString false.

(** [s.replace(/s$/, '')]. *)
Fixpoint dropFinalS (s : string) : string :=
  match s with
  | EmptyString => EmptyString
  | String c EmptyString => if Ascii.eqb c "s" then EmptyString else s
  | String c r => String c (dropFinalS r)
  end.

(** [parts.join(sep)]. *)
Fixpoint join (sep : string) (parts : list string) : string :=
  match parts with
  | [] => EmptyString
  | [p] => p
  | p :: ps => p ++ sep ++ join sep ps
  end.

Fixpoint replicate (n : nat) (c : ascii) : string :=
  match n with
  | O => EmptyString
  | S k => String c (replicate k c)
  end.

(** [s.padStart(n, '0')] for a one-character filler. *)
Definition padStart (n : nat) (c : ascii) (s : string) : string :=
  replicate (n - String.length s) c ++ s.

(** The longest prefix of digits, and what follows it. *)
Fixpoint spanDigits (s : string) : string * string :=
  match s with
  | EmptyString => (EmptyString, EmptyString)
  | String c r =>
      if isDigit c
      then let (ds, rest) := spanDigits r in (String c ds, rest)
      else (EmptyString, s)
  end.

(** [\d+] at the head of [s]. *)
Definition digits1 (s : string) : option (string * string) :=
  match spanDigits s with
  | (EmptyString, _) => None
  | (ds, rest) => Some (ds, rest)
  end.

(** A literal character at the head of [s]. *)
Definition expect (c : ascii) (s : string) : option string :=
  match s with
  | String d r => if Ascii.eqb c d then Some r else None
  | EmptyString => None
  end.

(** An optional group [(?:(\d+)X)?]: the digits must be followed by
    the letter [X], which no other group of the pattern accepts, so the
    group is taken exactly when it is there. *)
Definition optDigitsThen (x : ascii) (s : string) : option string * string :=
  match digits1 s with
  | Some (ds, rest) =>
      match expect x rest with
      | Some rest' => (Some ds, rest')
      | None => (None, s)
      end
  | None => (None, s)
  end.

(** An optional fraction [(?:\.(\d+))?]. *)
Definition optFraction (s : string) : option string * string :=
  match expect "." s with
  | Some r =>
      match digits1 r with
      | Some (fs, rest) => (Some fs, rest)
      | None => (None, s)
      end
  | None => (None, s)
  end.

(** The optional group [(?:(\d+(?:\.\d+)?)S)?] of the seconds. *)
Definition optSecondsThen (x : ascii) (s : string) : option string * string :=
  match digits1 s with
  | Some (ds, rest) =>
      let (frac, rest1) := optFraction rest in
      match expect x rest1 with
      | Some rest' =>
          (Some (ds ++ match frac with Some fs => "." ++ fs | None => EmptyString end), rest')
      | None => (None, s)
      end
  | None => (None, s)
  end.

Definition digitValue (c : ascii) : Z := Z.of_nat (nat_of_ascii c - 48).

Fixpoint digitsValueFrom (acc : Z) (s : string) : Z :=
  match s with
  | EmptyString => acc
  | String c r => digitsValueFrom (10 * acc + digitValue c) r
  end.

(** [parseInt(s)] on a string of decimal digits. *)
Definition parseInt (s : string) : Number :=
  inject_Z (digitsValueFrom 0 (fst (spanDigits s))).

(** [parseFloat(s)] on a string of the shape [-?\d+(\.\d+)?], the only
    strings the class passes to it: the decimal the string writes,
    exactly, where the host gives the double closest to it. *)
Definition parseFloat (s : string) : Number :=
  let negative := startsWith "-" s in
  let body := if negative then slice1 s else s in
  let (ip, rest) := spanDigits body in
  let fp := match fst (optFraction rest) with Some fs => fs | None => EmptyString end in
  let magnitude :=
    (inject_Z (digitsValueFrom 0 ip)
     + inject_Z (digitsValueFrom 0 fp) / inject_Z (10 ^ Z.of_nat (String.length fp)))%Q in
  if negative then (- magnitude)%Q else magnitude.

Definition digitChar (d : Z) : ascii := ascii_of_nat (48 + Z.to_nat d).

Fixpoint digitsFrom (fuel : nat) (n : Z) (acc : string) : string :=
  match fuel with
  | O => acc
  | S f =>
      let acc' := String (digitChar (n mod 10)) acc in
      if (n <? 10)%Z then acc' else digitsFrom f (n / 10) acc'
  end.

(** The decimal digits of a natural number; a number has no more
    digits than bits, so the fuel is never exhausted. *)
Definition natToString (n : Z) : string :=
  digitsFrom (S (Z.to_nat (Z.log2 n))) n EmptyString.

Definition intToString (n : Z) : string :=
  if (n <? 0)%Z then "-" ++ natToString (- n) else natToString n.

(** The digits after the decimal point of [f], for [0 <= f < 1] with a
    finite decimal expansion of at most [fuel] digits. *)
Fixpoint fractionDigits (fuel : nat) (f : Number) : option string :=
  match fuel with
  | O => None
  | S k =>
      let t := (f * inject_Z 10)%Q in
      let d := Qfloor t in
      let rest := (t - inject_Z d)%Q in
      if Qeq_bool rest 0 then Some (String (digitChar d) EmptyString)
      else match fractionDigits k rest with
           | Some ds => Some (String (digitChar d) ds)
           | None => None
           end
  end.

(** [String(x)], [x.toString()] and template interpolation of a
    number.  Integers print as their decimal digits.  Another number
    of magnitude at least [1e-6] whose decimal expansion ends within 15
    fraction digits prints as sign, integer digits, a point and those
    digits ([2.5], [757812.5]): the text [toString] gives for the
    double holding that decimal.  The exponent form of smaller numbers
    and the shortest round-trip rendering of other doubles are not
    modelled. *)
Definition numberToString (x : Number) : option string :=
  if isInteger x then Some (intToString (Qfloor x))
  else
    let magnitude := Math_abs x in
    if Qle_bool (1 # 1000000) magnitude
    then match fractionDigits 15 (magnitude - inject_Z (Qfloor magnitude)) with
         | Some ds =>
             Some ((if Qle_bool 0 x then EmptyString else "-")
                   ++ natToString (Qfloor magnitude) ++ "." ++ ds)
         | None => None
         end
    else None.

End Str.

Import Str.

(** ** Unit names *)

Definition UNIT_ALIASES : list (string * string) :=
  [ ("years", "year"); ("year", "year"); ("yr", "year"); ("y", "year");
    ("months", "month"); ("month", "month"); ("mons", "month"); ("mon", "month");
    ("days", "day"); ("day", "day"); ("d", "day");
    ("hours", "hour"); ("hour", "hour"); ("hr", "hour"); ("h", "hour");
    ("minutes", "minute"); ("minute", "minute"); ("mins", "minute"); ("min", "minute");
    ("seconds", "second"); ("second", "second"); ("secs", "second"); ("sec", "second");
    ("s", "second");
    ("milliseconds", "millisecond"); ("millisecond", "millisecond");
    ("millisecs", "millisecond"); ("millisec", "millisecond");
    ("msecs", "millisecond"); ("msec", "millisecond"); ("ms", "millisecond");
    ("microseconds", "microsecond"); ("microsecond", "microsecond");
    ("microsecs", "microsecond"); ("microsec", "microsecond");
    ("usecs", "microsecond"); ("usec", "microsecond"); ("us", "microsecond") ].

(** [map.get(key)] on a [Map] built from a list of distinct keys. *)
Fixpoint Map_get (m : list (string * string)) (key : string) : option string :=
  match m with
  | [] => None
  | (k, v) :: m' => if String.eqb k key then Some v else Map_get m' key
  end.

Definition getCanonicalUnit (unitName : string) : option string :=
  Map_get UNIT_ALIASES (toLowerCase unitName).

(** ** Parser *)

Definition addValueWithUnit (unitName : string) (value : Number) : M unit :=
  if String.eqb unitName "year" then addMonths (value * MONTHS_PER_YEAR)
  else if String.eqb unitName "month" then addMonths value
  else if String.eqb unitName "day" then addDays value
  else if String.eqb unitName "hour" then addTime value 0 0
  else if String.eqb unitName "minute" then addTime 0 value 0
  else if String.eqb unitName "second" then addTime 0 0 value
  else if String.eqb unitName "millisecond" then addMicroseconds (value * MICROSECONDS_PER_MILLISECOND)
  else if String.eqb unitName "microsecond" then addMicroseconds value
  else ret tt.

Definition handleNegativeSign (part : string) : bool := String.eqb part "-".

(** [/^-?\d+(\.\d+)?$/.test(part)]. *)
Definition isNumberText (part : string) : bool :=
  let body := if startsWith "-" part then slice1 part else part in
  match digits1 body with
  | Some (_, rest) => isEmpty (snd (optFraction rest))
  | None => false
  end.

(** [onSuccess] is the caller's closure over its local variables, of
    type [L]. *)
Definition tryParseNumber {L : Type} (part : string)
    (onSuccess : Number -> L -> L) (locals : L) : bool * L :=
  if negb (isNumberText part) then (false, locals)
  else (true, onSuccess (parseFloat part) locals).

(** [/^[a-z]+s?$/i.test(part)]: one letter or more, and nothing else. *)
Definition isUnitText (part : string) : bool :=
  negb (isEmpty part) && forallb isLetter part.

Definition tryParseUnit (part : string) (value : Number) (isNegative : bool) : M bool :=
  if negb (isUnitText part) then ret false
  else
    let unitBase := dropFinalS part in
    match getCanonicalUnit unitBase with
    | None => ret false
    | Some canonicalUnit =>
        let multiplier : Number := if isNegative then inject_Z (-1) else 1 in
        let finalValue := (value * multiplier)%Q in
        addValueWithUnit canonicalUnit finalValue ;;;
        ret true
    end.

(** One turn of the loop of [parseVerboseFormat] over the local
    variables [(currentValue, isNegative)]. *)
Definition verboseStep (locals : Number * bool) (part : string) : M (Number * bool) :=
  let (currentValue, isNegative) := locals in
  if handleNegativeSign part then ret (currentValue, true)
  else
    let (isNumber, locals') :=
      tryParseNumber part (fun value _ => (value, startsWith "-" part)) locals in
    if isNumber then ret locals'
    else
      matched <- tryParseUnit part currentValue isNegative ;;
      if matched then ret (0, false) else ret (currentValue, isNegative).

Fixpoint forOf {A L : Type} (body : L -> A -> M L) (locals : L) (xs : list A) : M L :=
  match xs with
  | [] => ret locals
  | x :: xs' => locals' <- body locals x ;; forOf body locals' xs'
  end.

Definition parseVerboseFormat (input : string) : M unit :=
  let parts := splitWhitespace input in
  forOf verboseStep (0, false) parts ;;;
  ret tt.

(** The captures of
    [/^P(?:(\d+)Y)?(?:(\d+)M)?(?:(\d+)D)?(?:T(?:(\d+)H)?(?:(\d+)M)?(?:(\d+(?:\.\d+)?)S)?)?$/]. *)
Record ISOMatch : Type := mkISOMatch {
  iso_years : option string;
  iso_months : option string;
  iso_days : option string;
  iso_hours : option string;
  iso_minutes : option string;
  iso_seconds : option string
}.

Definition matchISO8601 (input : string) : option ISOMatch :=
  match expect "P" input with
  | None => None
  | Some s0 =>
      let (y, s1) := optDigitsThen "Y" s0 in
      let (mo, s2) := optDigitsThen "M" s1 in
      let (d, s3) := optDigitsThen "D" s2 in
      match expect "T" s3 with
      | Some t0 =>
          let (h, t1) := optDigitsThen "H" t0 in
          let (mi, t2) := optDigitsThen "M" t1 in
          let (sec, t3) := optSecondsThen "S" t2 in
          if isEmpty t3 then Some (mkISOMatch y mo d h mi sec) else None
      | None =>
          if isEmpty s3 then Some (mkISOMatch y mo d None None None) else None
      end
  end.

Definition isSome {A : Type} (o : option A) : bool :=
  match o with Some _ => true | None => false end.

(** [x || '0'] on a capture. *)
Definition orZero (o : option string) : string :=
  match o with Some s => s | None => "0" end.

(** [if (x) m] on a capture. *)
Definition whenSome (o : option string) (m : string -> M unit) : M unit :=
  match o with Some s => m s | None => ret tt end.

Definition tryParseISO8601 (input : string) : M bool :=
  match matchISO8601 input with
  | None => ret false
  | Some m =>
      whenSome (iso_years m) (fun years => addMonths (parseInt years * MONTHS_PER_YEAR)) ;;;
      whenSome (iso_months m) (fun months => addMonths (parseInt months)) ;;;
      whenSome (iso_days m) (fun days => addDays (parseInt days)) ;;;
      (if isSome (iso_hours m) || isSome (iso_minutes m) || isSome (iso_seconds m)
       then addTime (parseInt (orZero (iso_hours m)))
                    (parseInt (orZero (iso_minutes m)))
                    (parseFloat (orZero (iso_seconds m)))
       else ret tt) ;;;
      ret true
  end.

(** The captures of [/^(-)?(\d+):(\d+):(\d+)(?:\.(\d+))?$/]. *)
Record TimeMatch : Type := mkTimeMatch {
  tm_negative : bool;
  tm_hours : string;
  tm_minutes : string;
  tm_seconds : string;
  tm_microseconds : option string
}.

Definition matchTimeFormat (input : string) : option TimeMatch :=
  let negative := startsWith "-" input in
  let s0 := if negative then slice1 input else input in
  match digits1 s0 with
  | None => None
  | Some (h, s1) =>
  match expect ":" s1 with
  | None => None
  | Some s2 =>
  match digits1 s2 with
  | None => None
  | Some (mi, s3) =>
  match expect ":" s3 with
  | None => None
  | Some s4 =>
  match digits1 s4 with
  | None => None
  | Some (sec, s5) =>
      let (frac, s6) := optFraction s5 in
      if isEmpty s6 then Some (mkTimeMatch negative h mi sec frac) else None
  end end end end end.

Definition tryParseTimeFormat (input : string) : M bool :=
  match matchTimeFormat input with
  | None => ret false
  | Some m =>
      let multiplier : Number := if tm_negative m then inject_Z (-1) else 1 in
      addTime (parseInt (tm_hours m) * multiplier)
              (parseInt (tm_minutes m) * multiplier)
              (parseFloat (tm_seconds m ++
                 match tm_microseconds m with Some us => "." ++ us | None => EmptyString end)
               * multiplier) ;;;
      ret true
  end.

(** [tryParseNegativeISO] calls back into [parse]; the callee is the
    first argument. *)
Definition tryParseNegativeISO (parse : string -> M unit) (input : string) : M bool :=
  if negb (startsWith "-P" input) then ret false
  else
    let positiveInput := slice1 input in
    parse positiveInput ;;;
    negateAllComponents ;;;
    ret true.

Definition parseBody (parse : string -> M unit) (input : string) : M unit :=
  neg <- tryParseNegativeISO parse input ;;
  if neg then ret tt else
  iso <- tryParseISO8601 input ;;
  if iso then ret tt else
  time <- tryParseTimeFormat input ;;
  if time then ret tt else
  parseVerboseFormat input.

(** [parse] recurses through [tryParseNegativeISO] on a strictly
    shorter input; the depth of the recursion is bounded by the length
    of the input (see [parse_unfold], the recursive equation of the
    source). *)
Fixpoint parseDepth (depth : nat) (input : string) : M unit :=
  match depth with
  | O => parseBody (fun _ => ret tt) input
  | S d => parseBody (parseDepth d) input
  end.

Definition parse (input : string) : M unit :=
  parseDepth (String.length input) input.

(** ** The class *)

Record Interval : Type := mkInterval { storage : IntervalStorage }.

Inductive ConstructorInput : Type :=
| NoInput
| TextInput (text : string)
| StorageInput (snapshot : IntervalStorage).

(** [new Interval(input)]: an empty string is falsy and is not parsed. *)
Definition newInterval (input : ConstructorInput) : Interval :=
  match input with
  | NoInput => mkInterval zeroStorage
  | TextInput text =>
      if isEmpty text then mkInterval zeroStorage
      else mkInterval (exec (parse (trim text)) zeroStorage)
  | StorageInput snapshot => mkInterval snapshot
  end.

Definition ofText (text : string) : Interval := newInterval (TextInput text).

Definition getStorage (this : Interval) : IntervalStorage :=
  normalizeStorage (storage this).

(** ** Arithmetic and equality *)

Definition add (this other : Interval) : Interval :=
  let a := normalizeStorage (storage this) in
  let b := normalizeStorage (storage other) in
  newInterval (StorageInput (mkStorage
    (months a + months b) (days a + days b) (microseconds a + microseconds b))).

Definition subtract (this other : Interval) : Interval :=
  let a := normalizeStorage (storage this) in
  let b := normalizeStorage (storage other) in
  newInterval (StorageInput (mkStorage
    (months a - months b) (days a - days b) (microseconds a - microseconds b))).

Definition multiply (this : Interval) (factor : Number) : Interval :=
  let norm := normalizeStorage (storage this) in
  newInterval (StorageInput (mkStorage
    (Math_round (months norm * factor))
    (Math_round (days norm * factor))
    (Math_round (microseconds norm * factor)))).

Definition equals (this other : Interval) : bool :=
  let a := normalizeStorage (storage this) in
  let b := normalizeStorage (storage other) in
  seq (months a) (months b) && seq (days a) (days b)
  && seq (microseconds a) (microseconds b).

(** ** Formatter

    The formatter interpolates numbers into strings; it yields [None]
    where [numberToString] does (a number whose text is not
    modelled). *)

Definition obind {A B : Type} (o : option A) (k : A -> option B) : option B :=
  match o with Some a => k a | None => None end.

Notation "x <-? o ;; k" := (obind o (fun x => k))
  (at level 61, o at next level, right associativity) : interval_scope.

(** [cond ? 's' : '']. *)
Definition plural (cond : bool) : string := if cond then "s" else EmptyString.

(** [parts.push(x)]. *)
Definition push (parts : list string) (x : string) : list string := parts ++ [x].

Definition appendYearsAndMonths (parts : list string) (totalMonths : Number)
  : option (list string) :=
  let absMonths := Math_abs totalMonths in
  let years := Math_floor (absMonths / MONTHS_PER_YEAR) in
  let months := rem absMonths MONTHS_PER_YEAR in
  parts1 <-? (if gt years 0
              then n <-? numberToString (Math_sign totalMonths * years) ;;
                   Some (push parts (n ++ " year" ++ plural (sneq years 1)))
              else Some parts) ;;
  if gt months 0
  then n <-? numberToString (Math_sign totalMonths * months) ;;
       Some (push parts1 (n ++ " mon" ++ plural (sneq months 1)))
  else Some parts1.

Definition appendDays (parts : list string) (days : Number) : option (list string) :=
  if sneq days 0
  then n <-? numberToString days ;;
       Some (push parts (n ++ " day" ++ plural (sneq (Math_abs days) 1)))
  else Some parts.

Record TimeParts : Type := mkTimeParts {
  tp_hours : Number;
  tp_minutes : Number;
  tp_seconds : Number;
  remainingMicros : Number;
  isNegative : bool
}.

Definition decomposeTime (microseconds : Number) : TimeParts :=
  let remaining0 := Math_abs microseconds in
  let hours := Math_floor (remaining0 / MICROSECONDS_PER_HOUR) in
  let remaining1 := rem remaining0 MICROSECONDS_PER_HOUR in
  let minutes := Math_floor (remaining1 / MICROSECONDS_PER_MINUTE) in
  let remaining2 := rem remaining1 MICROSECONDS_PER_MINUTE in
  let seconds := Math_floor (remaining2 / MICROSECONDS_PER_SECOND) in
  let remaining3 := rem remaining2 MICROSECONDS_PER_SECOND in
  mkTimeParts hours minutes seconds remaining3 (lt microseconds 0).

(** The text pushed by [appendTime] for a decomposed time. *)
Definition timeText (t : TimeParts) : option string :=
  h <-? numberToString (tp_hours t) ;;
  m <-? numberToString (tp_minutes t) ;;
  s <-? numberToString (tp_seconds t) ;;
  let timeStr :=
    (if isNegative t then "-" else EmptyString)
    ++ padStart 2 "0" h ++ ":" ++ padStart 2 "0" m ++ ":" ++ padStart 2 "0" s in
  if gt (remainingMicros t) 0
  then r <-? numberToString (remainingMicros t) ;;
       Some (timeStr ++ "." ++ padStart 6 "0" r)
  else Some timeStr.

Definition appendTime (parts : list string) (microseconds : Number)
    (forceDisplay : bool) : option (list string) :=
  if seq microseconds 0 && negb forceDisplay then Some parts
  else
    timeStr <-? timeText (decomposeTime microseconds) ;;
    Some (push parts timeStr).

Definition toPostgresString (this : Interval) : option string :=
  let norm := normalizeStorage (storage this) in
  let parts : list string := [] in
  parts1 <-? appendYearsAndMonths parts (months norm) ;;
  parts2 <-? appendDays parts1 (days norm) ;;
  parts3 <-? appendTime parts2 (microseconds norm)
               (seq (months norm) 0 && seq (days norm) 0) ;;
  let joined := join " " parts3 in
  Some (if isEmpty joined then "00:00:00" else joined).


(** ** Vocabulary of the statements *)

(** Round-half-away-from-zero, as the specification words it: the
    magnitude is rounded half up and the sign is put back. *)
Definition roundHalfAwayFromZero (x : Number) : Number :=
  Math_sign x * Math_floor (Math_abs x + (1 # 2)).

(** [x] lies half-way between two integers. *)
Definition isHalfway (x : Number) : bool := isInteger (x + (1 # 2)).

(** A string whose first character is a decimal digit. *)
Definition headIsDigit (s : string) : Prop :=
  exists c r, s = String c r /\ isDigit c = true.

(** The [hh:mm:ss] text of a non-negative whole number of
    microseconds, as [decomposeTime] and [appendTime] build it. *)
Definition clockText (us : Z) : string :=
  padStart 2 "0" (natToString (us / 3600000000))
  ++ ":" ++ padStart 2 "0" (natToString ((us mod 3600000000) / 60000000))
  ++ ":" ++ padStart 2 "0" (natToString (((us mod 3600000000) mod 60000000) / 1000000)).

(** The negated-ISO recognizer as the specification words it, an
    anchored grammar: it accepts when what follows the sign is an
    ISO-8601 duration and declines otherwise. *)
Definition tryParseNegativeISO_anchored (input : string) : M bool :=
  if negb (startsWith "-P" input) then ret false
  else
    match matchISO8601 (slice1 input) with
    | None => ret false
    | Some _ =>
        tryParseISO8601 (slice1 input) ;;;
        negateAllComponents ;;;
        ret true
    end.

(** The parser chain with that recognizer in the first place. *)
Definition parse_anchored (input : string) : M unit :=
  neg <- tryParseNegativeISO_anchored input ;;
  if neg then ret tt else
  iso <- tryParseISO8601 input ;;
  if iso then ret tt else
  time <- tryParseTimeFormat input ;;
  if time then ret tt else
  parseVerboseFormat input.

(** The duration below the month, in microseconds. *)
Definition totalMicroseconds (st : IntervalStorage) : Number :=
  days st * MICROSECONDS_PER_DAY + microseconds st.

(** Field by field, [a] is at most [b]. *)
Definition storage_le (a b : IntervalStorage) : Prop :=
  months a <= months b /\ days a <= days b /\ microseconds a <= microseconds b.

(** The tokens the loop of [parseVerboseFormat] acts on: a lone minus
    sign, a number, a unit name with an alias. *)
Definition recognized (part : string) : bool :=
  handleNegativeSign part || isNumberText part
  || (isUnitText part && isSome (getCanonicalUnit (dropFinalS part))).

(** The texts of a snapshot of whole numbers, part by part: years and
    months by a truncating split of the magnitude, each with the sign of
    the total; days; the clock time with its six-digit fraction. *)
Definition yearsMonthsText (m : Z) : list string :=
  let y := (Z.abs m / 12)%Z in
  let r := (Z.abs m mod 12)%Z in
  List.app
    (if (0 <? y)%Z
     then [intToString (Z.sgn m * y) ++ " year" ++ plural (negb (y =? 1)%Z)]
     else [])
    (if (0 <? r)%Z
     then [intToString (Z.sgn m * r) ++ " mon" ++ plural (negb (r =? 1)%Z)]
     else []).

Definition daysText (d : Z) : list string :=
  if (d =? 0)%Z then []
  else [intToString d ++ " day" ++ plural (negb (Z.abs d =? 1)%Z)].

Definition timeTextZ (u : Z) : string :=
  if (u mod 1000000 =? 0)%Z then clockText u
  else clockText u ++ "." ++ padStart 6 "0" (natToString (u mod 1000000)).

Definition snapshotParts (m d u : Z) : list string :=
  List.app (yearsMonthsText m)
    (List.app (daysText d)
       (if (u =? 0)%Z && negb ((m =? 0)%Z && (d =? 0)%Z) then [] else [timeTextZ u])).

(** * Properties *)

(** ** Numbers *)

From Stdlib Require Import Lqa.
Local Open Scope Q_scope.

Lemma Qfloor_unique (x : Q) (n : Z) :
  inject_Z n <= x -> x < inject_Z (n + 1) -> Qfloor x = n.
Proof.
  intros Hlo Hhi.
  pose proof (Qfloor_le x) as H1.
  pose proof (Qlt_floor x) as H2.
  assert (inject_Z n < inject_Z (Qfloor x + 1)) as A by (eapply Qle_lt_trans; eauto).
  assert (inject_Z (Qfloor x) < inject_Z (n + 1)) as B by (eapply Qle_lt_trans; eauto).
  rewrite <- Zlt_Qlt in A, B. lia.
Qed.

Lemma lt_true (a b : Q) : lt a b = true <-> a < b.
Proof.
  unfold lt. rewrite negb_true_iff.
  split; intro H.
  - apply Qnot_le_lt. intro L. apply Qle_bool_iff in L. congruence.
  - destruct (Qle_bool b a) eqn:E; [|reflexivity].
    apply Qle_bool_iff in E. exfalso. exact (Qlt_not_le _ _ H E).
Qed.

Lemma lt_false (a b : Q) : lt a b = false <-> b <= a.
Proof.
  unfold lt. rewrite negb_false_iff. apply Qle_bool_iff.
Qed.

Lemma sneq_true (a b : Q) : sneq a b = true <-> ~ a == b.
Proof.
  unfold sneq. rewrite negb_true_iff. split; intro H.
  - intro E. apply Qeq_bool_iff in E. congruence.
  - destruct (Qeq_bool a b) eqn:E; [|reflexivity].
    apply Qeq_bool_iff in E. contradiction.
Qed.

Section DivisionBounds.
Variables (a b x : Q).
Hypothesis Hb : 0 < b.

Lemma div_mul_cancel : a / b * b == a.
Proof. field. intro E. rewrite E in Hb. discriminate. Qed.

Lemma le_div_iff : x <= a / b <-> b * x <= a.
Proof.
  split; intro H.
  - apply (Qmult_le_compat_r _ _ b) in H; [|apply Qlt_le_weak; exact Hb].
    rewrite div_mul_cancel in H. rewrite Qmult_comm. exact H.
  - apply Qle_shift_div_l; [exact Hb|]. rewrite Qmult_comm. exact H.
Qed.

Lemma div_lt_iff : a / b < x <-> a < b * x.
Proof.
  split; intro H.
  - apply (Qmult_lt_compat_r _ _ b) in H; [|exact Hb].
    rewrite div_mul_cancel in H. rewrite Qmult_comm. exact H.
  - apply Qlt_shift_div_r; [exact Hb|]. rewrite Qmult_comm. exact H.
Qed.

Lemma div_le_iff : a / b <= x <-> a <= b * x.
Proof.
  split; intro H.
  - apply (Qmult_le_compat_r _ _ b) in H; [|apply Qlt_le_weak; exact Hb].
    rewrite div_mul_cancel in H. rewrite Qmult_comm. exact H.
  - apply Qle_shift_div_r; [exact Hb|]. rewrite Qmult_comm. exact H.
Qed.

Lemma lt_div_iff : x < a / b <-> b * x < a.
Proof.
  split; intro H.
  - apply (Qmult_lt_compat_r _ _ b) in H; [|exact Hb].
    rewrite div_mul_cancel in H. rewrite Qmult_comm. exact H.
  - apply Qlt_shift_div_l; [exact Hb|]. rewrite Qmult_comm. exact H.
Qed.
End DivisionBounds.

Lemma rem_nonneg (a b : Q) : 0 <= a -> 0 < b -> 0 <= rem a b /\ rem a b < b.
Proof.
  intros Ha Hb. unfold rem, trunc.
  assert (0 <= a / b) as Hq by (apply Qle_shift_div_l; lra).
  apply Qle_bool_iff in Hq. rewrite Hq.
  pose proof (Qfloor_le (a / b)) as H1.
  pose proof (Qlt_floor (a / b)) as H2.
  apply le_div_iff in H1; [|assumption].
  apply div_lt_iff in H2; [|assumption].
  rewrite inject_Z_plus in H2. change (inject_Z 1) with 1 in H2.
  set (k := inject_Z (Qfloor (a / b))) in *.
  setoid_replace (b * (k + 1)) with (b * k + b) in H2 by ring.
  set (bk := b * k) in *. split; lra.
Qed.

Lemma rem_neg (a b : Q) : a < 0 -> 0 < b -> - b < rem a b /\ rem a b <= 0.
Proof.
  intros Ha Hb. unfold rem, trunc.
  assert (a / b < 0) as Hq.
  { apply (div_lt_iff a b 0 Hb). rewrite Qmult_0_r. exact Ha. }
  destruct (Qle_bool 0 (a / b)) eqn:E.
  { apply Qle_bool_iff in E. lra. }
  pose proof (Qle_ceiling (a / b)) as H1.
  pose proof (Qceiling_lt (a / b)) as H2.
  apply lt_div_iff in H2; [|assumption].
  apply div_le_iff in H1; [|assumption].
  unfold Zminus in H2. rewrite inject_Z_plus in H2.
  change (inject_Z (-1)) with (- (1)) in H2.
  set (k := inject_Z (Qceiling (a / b))) in *.
  setoid_replace (b * (k + - (1))) with (b * k - b) in H2 by ring.
  set (bk := b * k) in *. split; lra.
Qed.

(** ** Normalizer *)

Lemma MICROSECONDS_PER_DAY_pos : 0 < MICROSECONDS_PER_DAY.
Proof. reflexivity. Qed.

(** What [normalizeMicroseconds] leaves in the microseconds field lies
    in the half-open range of one day, for every stored value. *)
Lemma normalizeMicroseconds_range (st : IntervalStorage) :
  0 <= snd (normalizeMicroseconds st)
  /\ snd (normalizeMicroseconds st) < MICROSECONDS_PER_DAY.
Proof.
  unfold normalizeMicroseconds.
  set (us := microseconds st).
  set (D := MICROSECONDS_PER_DAY).
  pose proof MICROSECONDS_PER_DAY_pos as HD. fold D in HD.
  destruct (lt us 0) eqn:Hneg; simpl.
  - apply lt_true in Hneg.
    destruct (rem_neg us D Hneg HD) as [Hlo Hhi].
    destruct (sneq (rem us D) 0) eqn:Hnz; simpl.
    + apply sneq_true in Hnz.
      assert (rem us D < 0) as Hlt.
      { apply Qle_lteq in Hhi. destruct Hhi; [assumption|contradiction]. }
      split; lra.
    + unfold sneq in Hnz. apply negb_false_iff in Hnz.
      apply Qeq_bool_iff in Hnz. split; lra.
  - apply lt_false in Hneg.
    destruct (rem_nonneg us D Hneg HD). split; assumption.
Qed.

Lemma normalizeStorage_microseconds (st : IntervalStorage) :
  microseconds (normalizeStorage st) = snd (normalizeMicroseconds st).
Proof.
  unfold normalizeStorage. destruct (normalizeMicroseconds st). reflexivity.
Qed.

Lemma normalizeStorage_months (st : IntervalStorage) :
  months (normalizeStorage st) = months st.
Proof.
  unfold normalizeStorage. destruct (normalizeMicroseconds st). reflexivity.
Qed.

(** The day count of the snapshot, for every stored value. *)
Lemma normalizeStorage_days (st : IntervalStorage) :
  days (normalizeStorage st)
  = days st
    + (if lt (microseconds st) 0 && sneq (rem (microseconds st) MICROSECONDS_PER_DAY) 0
       then Math_floor (microseconds st / MICROSECONDS_PER_DAY) - 1
       else Math_floor (microseconds st / MICROSECONDS_PER_DAY)).
Proof.
  unfold normalizeStorage, normalizeMicroseconds.
  destruct (lt (microseconds st) 0 && sneq (rem (microseconds st) MICROSECONDS_PER_DAY) 0);
    reflexivity.
Qed.

(** The remainder left by [normalizeMicroseconds] is the floor-division
    remainder of the stored microseconds, for every stored value. *)
Lemma normalizeMicroseconds_remainder (st : IntervalStorage) :
  snd (normalizeMicroseconds st)
  == microseconds st
     - MICROSECONDS_PER_DAY * Math_floor (microseconds st / MICROSECONDS_PER_DAY).
Proof.
  unfold normalizeMicroseconds, Math_floor.
  set (us := microseconds st).
  set (D := MICROSECONDS_PER_DAY).
  pose proof MICROSECONDS_PER_DAY_pos as HD. fold D in HD.
  destruct (lt us 0) eqn:Hneg; cbn [andb].
  - apply lt_true in Hneg.
    assert (us / D < 0) as Hq by (apply (div_lt_iff us D 0 HD); rewrite Qmult_0_r; exact Hneg).
    assert (rem us D == us - D * inject_Z (Qceiling (us / D))) as Hrem.
    { unfold rem, trunc. destruct (Qle_bool 0 (us / D)) eqn:E; [|reflexivity].
      apply Qle_bool_iff in E. lra. }
    pose proof (Qle_ceiling (us / D)) as C1.
    pose proof (Qceiling_lt (us / D)) as C2.
    unfold Zminus in C2. rewrite inject_Z_plus, inject_Z_opp in C2.
    change (inject_Z 1) with 1 in C2.
    destruct (sneq (rem us D) 0) eqn:Hnz; cbn [snd].
    + apply sneq_true in Hnz.
      assert (Qfloor (us / D) = (Qceiling (us / D) - 1)%Z) as ->.
      { apply Qfloor_unique.
        - unfold Zminus. rewrite inject_Z_plus, inject_Z_opp.
          change (inject_Z 1) with 1. lra.
        - replace (Qceiling (us / D) - 1 + 1)%Z with (Qceiling (us / D)) by lia.
          apply Qle_lteq in C1. destruct C1 as [C1 | C1]; [exact C1|].
          exfalso. apply Hnz. rewrite Hrem, <- C1. field. lra. }
      rewrite Hrem. unfold Zminus. rewrite inject_Z_plus, inject_Z_opp.
      change (inject_Z 1) with 1. ring.
    + unfold sneq in Hnz. apply negb_false_iff in Hnz. apply Qeq_bool_iff in Hnz.
      assert (us / D == inject_Z (Qceiling (us / D))) as Hint.
      { rewrite Hrem in Hnz.
        assert (us == D * inject_Z (Qceiling (us / D))) as E by lra.
        rewrite E at 1. field. lra. }
      assert (Qfloor (us / D) = Qceiling (us / D)) as ->.
      { rewrite Hint at 1. apply Qfloor_Z. }
      exact Hrem.
  - apply lt_false in Hneg. cbn [snd].
    unfold rem, trunc.
    assert (0 <= us / D) as Hq by (apply Qle_shift_div_l; [exact HD | lra]).
    apply Qle_bool_iff in Hq. rewrite Hq. reflexivity.
Qed.

Lemma normalizeStorage_days_negative (st : IntervalStorage) :
  microseconds st < 0 ->
  ~ rem (microseconds st) MICROSECONDS_PER_DAY == 0 ->
  days (normalizeStorage st)
  = days st + (Math_floor (microseconds st / MICROSECONDS_PER_DAY) - 1).
Proof.
  intros Hneg Hnz. rewrite normalizeStorage_days.
  apply lt_true in Hneg. apply sneq_true in Hnz. rewrite Hneg, Hnz. reflexivity.
Qed.

(** ** Rounding *)

Lemma Math_round_nearest (x : Number) :
  exists n : Z, Math_round x = inject_Z n
    /\ inject_Z n - (1 # 2) <= x /\ x < inject_Z n + (1 # 2).
Proof.
  exists (Qfloor (x + (1 # 2))). split; [reflexivity|].
  pose proof (Qfloor_le (x + (1 # 2))) as H1.
  pose proof (Qlt_floor (x + (1 # 2))) as H2.
  rewrite inject_Z_plus in H2. change (inject_Z 1) with 1 in H2.
  split; lra.
Qed.

Lemma Math_sign_pos (x : Number) : 0 < x -> Math_sign x = 1.
Proof.
  intro H. unfold Math_sign.
  destruct (Qcompare_spec x 0); [lra | lra | reflexivity].
Qed.

Lemma Math_sign_neg (x : Number) : x < 0 -> Math_sign x = inject_Z (-1).
Proof.
  intro H. unfold Math_sign.
  destruct (Qcompare_spec x 0); [lra | reflexivity | lra].
Qed.

Lemma Math_sign_zero (x : Number) : x == 0 -> Math_sign x = 0.
Proof.
  intro H. unfold Math_sign.
  destruct (Qcompare_spec x 0); [reflexivity | lra | lra].
Qed.

Lemma Math_round_nonneg (x : Number) :
  0 <= x -> Math_round x == roundHalfAwayFromZero x.
Proof.
  intro Hx. unfold roundHalfAwayFromZero, Math_round, Math_floor, Math_abs.
  rewrite (Qabs_pos x Hx).
  apply Qle_lteq in Hx. destruct Hx as [Hpos | Hzero].
  - rewrite (Math_sign_pos x Hpos). ring.
  - rewrite (Math_sign_zero x (Qeq_sym _ _ Hzero)).
    rewrite <- Hzero. reflexivity.
Qed.

Lemma isInteger_false (x : Number) (n : Z) :
  isInteger x = false -> ~ x == inject_Z n.
Proof.
  unfold isInteger. intros H E.
  assert (Qeq_bool x (inject_Z (Qfloor x)) = true) as T.
  { apply Qeq_bool_iff. rewrite E at 2. rewrite Qfloor_Z. exact E. }
  congruence.
Qed.

Lemma isInteger_true (x : Number) :
  isInteger x = true -> x == inject_Z (Qfloor x).
Proof. unfold isInteger. apply Qeq_bool_iff. Qed.

Lemma Math_round_neg_not_halfway (x : Number) :
  x < 0 -> isHalfway x = false -> Math_round x == roundHalfAwayFromZero x.
Proof.
  intros Hx Hh. unfold roundHalfAwayFromZero, Math_round, Math_floor, Math_abs.
  rewrite (Math_sign_neg x Hx).
  rewrite (Qabs_neg x) by lra.
  set (m := Qfloor (- x + (1 # 2))).
  assert (Qfloor (x + (1 # 2)) = (- m)%Z) as ->.
  { pose proof (Qfloor_le (- x + (1 # 2))) as H1.
    pose proof (Qlt_floor (- x + (1 # 2))) as H2.
    fold m in H1, H2.
    rewrite inject_Z_plus in H2. change (inject_Z 1) with 1 in H2.
    apply Qfloor_unique.
    - rewrite inject_Z_opp. lra.
    - rewrite inject_Z_plus, inject_Z_opp. change (inject_Z 1) with 1.
      apply Qle_lteq in H1. destruct H1 as [H1 | H1]; [lra|].
      exfalso. apply (isInteger_false _ (1 - m) Hh).
      unfold Zminus. rewrite inject_Z_plus, inject_Z_opp.
      change (inject_Z 1) with 1. lra. }
  rewrite inject_Z_opp. change (inject_Z (-1)) with (- (1)). ring.
Qed.

Lemma Math_round_neg_halfway (x : Number) :
  x < 0 -> isHalfway x = true -> Math_round x == roundHalfAwayFromZero x + 1.
Proof.
  intros Hx Hh. unfold roundHalfAwayFromZero, Math_round, Math_floor, Math_abs.
  rewrite (Math_sign_neg x Hx).
  rewrite (Qabs_neg x) by lra.
  apply isInteger_true in Hh.
  set (k := Qfloor (x + (1 # 2))) in *.
  assert (Qfloor (- x + (1 # 2)) = (1 - k)%Z) as ->.
  { apply Qfloor_unique.
    - unfold Zminus. rewrite inject_Z_plus, inject_Z_opp.
      change (inject_Z 1) with 1. lra.
    - unfold Zminus. rewrite !inject_Z_plus, inject_Z_opp.
      change (inject_Z 1) with 1. lra. }
  unfold Zminus. rewrite inject_Z_plus, inject_Z_opp.
  change (inject_Z (-1)) with (- (1)). change (inject_Z 1) with 1. ring.
Qed.

(** ** Integer-valued numbers *)

Lemma numberToString_inject (x : Number) (n : Z) :
  x == inject_Z n -> numberToString x = Some (intToString n).
Proof.
  intro H. unfold numberToString, isInteger.
  assert (Qfloor x = n) as -> by (rewrite H; apply Qfloor_Z).
  apply Qeq_bool_iff in H. rewrite H. reflexivity.
Qed.

Lemma intToString_nonneg (n : Z) : (0 <= n)%Z -> intToString n = natToString n.
Proof.
  intro H. unfold intToString.
  destruct (Z.ltb_spec n 0); [lia | reflexivity].
Qed.

Lemma Math_floor_Z (x b : Number) (a bz : Z) :
  x == inject_Z a -> b == inject_Z bz ->
  Math_floor (x / b) = inject_Z (a / bz).
Proof.
  intros Hx Hb. unfold Math_floor. rewrite Hx, Hb, <- Zdiv_Qdiv. reflexivity.
Qed.

Lemma rem_Z (x b : Number) (a bz : Z) :
  x == inject_Z a -> b == inject_Z bz -> (0 <= a)%Z -> (0 < bz)%Z ->
  rem x b == inject_Z (a mod bz).
Proof.
  intros Hx Hb Ha Hbz.
  assert (0 <= x) as Hx0 by (rewrite Hx; change 0 with (inject_Z 0); rewrite <- Zle_Qle; exact Ha).
  assert (0 < b) as Hb0 by (rewrite Hb; change 0 with (inject_Z 0); rewrite <- Zlt_Qlt; exact Hbz).
  destruct (rem_nonneg x b Hx0 Hb0) as [L U].
  unfold rem in *. set (q := trunc (x / b)) in *.
  assert (x - b * inject_Z q == inject_Z (a - bz * q)) as E.
  { rewrite Hx, Hb. unfold Zminus.
    rewrite inject_Z_plus, inject_Z_opp, inject_Z_mult. reflexivity. }
  rewrite E in L, U. rewrite E. rewrite Hb in U.
  change 0 with (inject_Z 0) in L.
  rewrite <- Zle_Qle in L. rewrite <- Zlt_Qlt in U.
  rewrite (Z.mod_unique a bz q (a - bz * q)); [reflexivity | lia | lia].
Qed.

(** On a whole number of microseconds the snapshot keeps the
    floor-division remainder by one day. *)
Lemma normalizeStorage_microseconds_Z (st : IntervalStorage) (u : Z) :
  microseconds st == inject_Z u ->
  microseconds (normalizeStorage st) == inject_Z (u mod 86400000000).
Proof.
  intro Hu. rewrite normalizeStorage_microseconds, normalizeMicroseconds_remainder.
  assert (MICROSECONDS_PER_DAY == inject_Z 86400000000) as ED by reflexivity.
  rewrite (Math_floor_Z _ _ _ _ Hu ED). rewrite Hu, ED.
  rewrite Z.mod_eq by lia. unfold Zminus.
  rewrite inject_Z_plus, inject_Z_opp, inject_Z_mult. reflexivity.
Qed.

(** ** Digits and padding *)

Lemma length_app (s t : string) :
  String.length (s ++ t) = (String.length s + String.length t)%nat.
Proof. induction s as [|c s IH]; simpl; [reflexivity | rewrite IH; reflexivity]. Qed.

Lemma length_replicate (n : nat) (c : ascii) : String.length (replicate n c) = n.
Proof. induction n as [|n IH]; simpl; [reflexivity | rewrite IH; reflexivity]. Qed.

Lemma padStart_length (n : nat) (c : ascii) (s : string) :
  (String.length s <= n)%nat -> String.length (padStart n c s) = n.
Proof.
  intro H. unfold padStart. rewrite length_app, length_replicate. lia.
Qed.

Lemma digitChar_isDigit (d : Z) : (0 <= d < 10)%Z -> isDigit (digitChar d) = true.
Proof.
  intro H.
  assert (d = 0 \/ d = 1 \/ d = 2 \/ d = 3 \/ d = 4 \/ d = 5 \/ d = 6
          \/ d = 7 \/ d = 8 \/ d = 9)%Z as C by lia.
  repeat (destruct C as [-> | C]; [reflexivity|]). subst d. reflexivity.
Qed.

Lemma digitsFrom_head (fuel : nat) (n : Z) (acc : string) :
  headIsDigit (digitsFrom (S fuel) n acc).
Proof.
  revert n acc. induction fuel as [|f IH]; intros n acc.
  - simpl. destruct (n <? 10)%Z;
      (eexists; eexists; split; [reflexivity | apply digitChar_isDigit; apply Z.mod_pos_bound; lia]).
  - change (digitsFrom (S (S f)) n acc)
      with (let acc' := String (digitChar (n mod 10)) acc in
            if (n <? 10)%Z then acc' else digitsFrom (S f) (n / 10) acc').
    cbv zeta. destruct (n <? 10)%Z.
    + eexists; eexists; split; [reflexivity | apply digitChar_isDigit; apply Z.mod_pos_bound; lia].
    + apply IH.
Qed.

Lemma natToString_head (n : Z) : headIsDigit (natToString n).
Proof. unfold natToString. apply digitsFrom_head. Qed.

Lemma digitsFrom_length (fuel : nat) :
  forall (n : Z) (acc : string) (k : nat),
    (0 <= n < 10 ^ Z.of_nat (S k))%Z ->
    (String.length (digitsFrom fuel n acc) <= S k + String.length acc)%nat.
Proof.
  induction fuel as [|f IH]; intros n acc k Hn.
  - simpl. lia.
  - change (digitsFrom (S f) n acc)
      with (let acc' := String (digitChar (n mod 10)) acc in
            if (n <? 10)%Z then acc' else digitsFrom f (n / 10) acc').
    cbv zeta. destruct (Z.ltb_spec n 10) as [Hlt | Hge].
    + simpl. lia.
    + destruct k as [|k].
      * change (10 ^ Z.of_nat 1)%Z with 10%Z in Hn. lia.
      * specialize (IH (n / 10)%Z (String (digitChar (n mod 10)) acc) k).
        simpl String.length in IH.
        assert (0 <= n / 10 < 10 ^ Z.of_nat (S k))%Z as Hq.
        { rewrite (Nat2Z.inj_succ (S k)), Z.pow_succ_r in Hn by lia.
          split; [apply Z.div_pos; lia | apply Z.div_lt_upper_bound; lia]. }
        specialize (IH Hq). lia.
Qed.

Lemma natToString_length (n : Z) (k : nat) :
  (0 <= n < 10 ^ Z.of_nat (S k))%Z -> (String.length (natToString n) <= S k)%nat.
Proof.
  intro H. unfold natToString.
  pose proof (digitsFrom_length (S (Z.to_nat (Z.log2 n))) n EmptyString k H) as L.
  change (String.length EmptyString) with 0%nat in L.
  rewrite Nat.add_0_r in L. exact L.
Qed.

Lemma padStart_head (n : nat) (s : string) :
  headIsDigit s -> headIsDigit (padStart n "0" s).
Proof.
  intros (c & r & -> & Hc). unfold padStart.
  destruct (n - String.length (String c r))%nat as [|k]; simpl.
  - exists c, r. split; [reflexivity | exact Hc].
  - eexists; eexists; split; [reflexivity | reflexivity].
Qed.

Lemma headIsDigit_app (s t : string) : headIsDigit s -> headIsDigit (s ++ t).
Proof.
  intros (c & r & -> & Hc). exists c, (r ++ t). split; [reflexivity | exact Hc].
Qed.

Lemma headIsDigit_not_minus (s : string) : headIsDigit s -> startsWith "-" s = false.
Proof.
  intros (c & r & -> & Hc). unfold startsWith.
  change (String.prefix "-" (String c r))
    with (if ascii_dec "-" c then String.prefix EmptyString r else false).
  destruct (ascii_dec "-" c) as [E | N]; [|reflexivity].
  subst c. discriminate Hc.
Qed.

Lemma append_assoc (a b c : string) : (a ++ b) ++ c = a ++ b ++ c.
Proof. induction a as [|x a IH]; simpl; [reflexivity | rewrite IH; reflexivity]. Qed.

Lemma join_push (sep : string) (parts : list string) (t : string) :
  exists prefix, join sep (push parts t) = prefix ++ t.
Proof.
  unfold push. induction parts as [|p ps IH].
  - exists EmptyString. reflexivity.
  - destruct IH as [pre IH]. destruct ps as [|q qs].
    + exists (p ++ sep). cbn [app join]. rewrite append_assoc. reflexivity.
    + exists (p ++ sep ++ pre).
      change (join sep ((p :: q :: qs) ++ [t])%list)
        with (p ++ sep ++ join sep ((q :: qs) ++ [t])%list).
      rewrite IH, !append_assoc. reflexivity.
Qed.

Lemma isEmpty_app_cons (s t : string) (c : ascii) : isEmpty (s ++ String c t) = false.
Proof. destruct s; reflexivity. Qed.

Lemma forallb_app (p : ascii -> bool) (s t : string) :
  forallb p (s ++ t) = forallb p s && forallb p t.
Proof.
  induction s as [|c s IH]; [reflexivity|].
  cbn [append forallb]. rewrite IH, andb_assoc. reflexivity.
Qed.

Lemma padStart_digits (n : nat) (s : string) :
  forallb isDigit s = true -> forallb isDigit (padStart n "0" s) = true.
Proof.
  intro H. unfold padStart. rewrite forallb_app, H, andb_true_r.
  induction (n - String.length s)%nat as [|k IH]; [reflexivity | exact IH].
Qed.

(** *** Printing and reading back a natural number *)

Lemma digitValue_digitChar (d : Z) : (0 <= d < 10)%Z -> digitValue (digitChar d) = d.
Proof.
  intro H.
  assert (d = 0 \/ d = 1 \/ d = 2 \/ d = 3 \/ d = 4 \/ d = 5 \/ d = 6
          \/ d = 7 \/ d = 8 \/ d = 9)%Z as C by lia.
  repeat (destruct C as [-> | C]; [reflexivity|]). subst d. reflexivity.
Qed.

Lemma digitsValueFrom_acc (s : string) :
  forall a : Z,
    digitsValueFrom a s
    = (a * 10 ^ Z.of_nat (String.length s) + digitsValueFrom 0 s)%Z.
Proof.
  induction s as [|c r IH]; intro a.
  - simpl. lia.
  - cbn [digitsValueFrom String.length].
    rewrite (IH (10 * a + digitValue c)%Z), (IH (10 * 0 + digitValue c)%Z).
    rewrite Nat2Z.inj_succ, Z.pow_succ_r by lia. ring.
Qed.

Lemma digitsFrom_value (fuel : nat) :
  forall (n : Z) (acc : string),
    (0 <= n < 2 ^ Z.of_nat fuel)%Z ->
    digitsValueFrom 0 (digitsFrom fuel n acc)
    = (n * 10 ^ Z.of_nat (String.length acc) + digitsValueFrom 0 acc)%Z.
Proof.
  induction fuel as [|f IH]; intros n acc Hn.
  - change (2 ^ Z.of_nat 0)%Z with 1%Z in Hn.
    assert (n = 0)%Z as -> by lia. reflexivity.
  - change (digitsFrom (S f) n acc)
      with (let acc' := String (digitChar (n mod 10)) acc in
            if (n <? 10)%Z then acc' else digitsFrom f (n / 10) acc').
    cbv zeta.
    assert (0 <= n mod 10 < 10)%Z as Hd by (apply Z.mod_pos_bound; lia).
    assert (digitsValueFrom 0 (String (digitChar (n mod 10)) acc)
            = (n mod 10 * 10 ^ Z.of_nat (String.length acc)
               + digitsValueFrom 0 acc)%Z) as Hacc.
    { cbn [digitsValueFrom]. rewrite digitsValueFrom_acc.
      rewrite (digitValue_digitChar _ Hd). ring. }
    destruct (Z.ltb_spec n 10) as [Hlt | Hge].
    + rewrite Hacc. rewrite Z.mod_small by lia. reflexivity.
    + rewrite Nat2Z.inj_succ, Z.pow_succ_r in Hn by lia.
      rewrite IH.
      * rewrite Hacc. cbn [String.length].
        rewrite Nat2Z.inj_succ, Z.pow_succ_r by lia.
        rewrite (Z.div_mod n 10) at 3 by lia. ring.
      * split; [apply Z.div_pos; lia | apply Z.div_lt_upper_bound; lia].
Qed.

Lemma digitsFrom_digits (fuel : nat) :
  forall (n : Z) (acc : string),
    forallb isDigit acc = true -> forallb isDigit (digitsFrom fuel n acc) = true.
Proof.
  induction fuel as [|f IH]; intros n acc Hacc; [exact Hacc|].
  change (digitsFrom (S f) n acc)
    with (let acc' := String (digitChar (n mod 10)) acc in
          if (n <? 10)%Z then acc' else digitsFrom f (n / 10) acc').
  cbv zeta.
  assert (forallb isDigit (String (digitChar (n mod 10)) acc) = true) as H.
  { cbn [forallb]. rewrite Hacc, digitChar_isDigit; [reflexivity|].
    apply Z.mod_pos_bound. lia. }
  destruct (n <? 10)%Z; [exact H | apply IH; exact H].
Qed.

Lemma spanDigits_all (s : string) :
  forallb isDigit s = true -> spanDigits s = (s, EmptyString).
Proof.
  induction s as [|c r IH]; intro H; [reflexivity|].
  cbn [forallb] in H. apply andb_true_iff in H. destruct H as [Hc Hr].
  cbn [spanDigits]. rewrite Hc, (IH Hr). reflexivity.
Qed.

(** The digits printed for a natural number read back as that number:
    the fuel of [natToString] is enough for every number. *)
Lemma parseInt_natToString (n : Z) :
  (0 <= n)%Z -> parseInt (natToString n) = inject_Z n.
Proof.
  intro Hn. unfold parseInt, natToString.
  rewrite spanDigits_all by (apply digitsFrom_digits; reflexivity).
  cbn [fst]. rewrite digitsFrom_value.
  - cbn [String.length digitsValueFrom]. f_equal. change (10 ^ Z.of_nat 0)%Z with 1%Z. lia.
  - split; [exact Hn|].
    rewrite Nat2Z.inj_succ, Z2Nat.id by apply Z.log2_nonneg.
    destruct (Z.eq_dec n 0) as [-> | Hnz]; [reflexivity|].
    apply Z.log2_spec. lia.
Qed.

Lemma natToString_digits (n : Z) : forallb isDigit (natToString n) = true.
Proof. unfold natToString. apply digitsFrom_digits. reflexivity. Qed.

(** ** Parser chain *)

Lemma parseBody_ext (f g : string -> M unit) (input : string) (st : IntervalStorage) :
  (forall st', f (slice1 input) st' = g (slice1 input) st') ->
  parseBody f input st = parseBody g input st.
Proof.
  intro H. unfold parseBody, tryParseNegativeISO, bind.
  destruct (startsWith "-P" input); simpl; [rewrite H|]; reflexivity.
Qed.

(** The recursive equation of [parse] in the source: the depth given
    to [parseDepth] is always enough. *)
Lemma parse_unfold (input : string) (st : IntervalStorage) :
  parse input st = parseBody parse input st.
Proof.
  unfold parse at 1. destruct input as [|c r].
  - reflexivity.
  - change (parseDepth (String.length (String c r)) (String c r) st)
      with (parseBody (parseDepth (String.length r)) (String c r) st).
    apply parseBody_ext. intro st'. reflexivity.
Qed.

Lemma matchISO8601_starts (input : string) (m : ISOMatch) :
  matchISO8601 input = Some m -> startsWith "-P" input = false.
Proof.
  unfold matchISO8601, expect. destruct input as [|c r]; [discriminate|].
  destruct (Ascii.eqb_spec "P" c) as [<- | N]; [reflexivity | discriminate].
Qed.

Lemma tryParseISO8601_accepts (input : string) (m : ISOMatch) (st : IntervalStorage) :
  matchISO8601 input = Some m -> fst (tryParseISO8601 input st) = true.
Proof.
  intro H. unfold tryParseISO8601. rewrite H. unfold bind.
  repeat match goal with
         | |- context [let (_, _) := ?e in _] => destruct e
         end.
  reflexivity.
Qed.

Lemma parse_iso (input : string) (m : ISOMatch) (st : IntervalStorage) :
  matchISO8601 input = Some m ->
  parse input st = (tt, exec (tryParseISO8601 input) st).
Proof.
  intro H. rewrite parse_unfold. unfold parseBody, tryParseNegativeISO.
  rewrite (matchISO8601_starts input m H). simpl negb.
  unfold bind, ret, exec. cbv beta iota.
  pose proof (tryParseISO8601_accepts input m st H) as A.
  destruct (tryParseISO8601 input st) as [b st']. simpl in A. subst b. reflexivity.
Qed.

Lemma startsWith_minus_P (input : string) :
  startsWith "-P" input = true -> exists r, input = String "-" (String "P" r).
Proof.
  unfold startsWith. intro H.
  destruct input as [|c s]; [discriminate H|].
  cbn [String.prefix] in H.
  destruct (ascii_dec "-" c) as [<- | _]; [|discriminate H].
  destruct s as [|d r]; [discriminate H|].
  cbn [String.prefix] in H.
  destruct (ascii_dec "P" d) as [<- | _]; [|discriminate H].
  exists r. reflexivity.
Qed.

(** A text that begins with [P] and is not an ISO-8601 duration goes to
    the verbose grammar. *)
Lemma parse_P_verbose (r : string) (st : IntervalStorage) :
  matchISO8601 (String "P" r) = None ->
  parse (String "P" r) st = (tt, exec (parseVerboseFormat (String "P" r)) st).
Proof.
  intro H. rewrite parse_unfold. unfold parseBody, tryParseNegativeISO.
  change (startsWith "-P" (String "P" r)) with false. cbn [negb].
  unfold tryParseISO8601. rewrite H.
  unfold tryParseTimeFormat.
  change (matchTimeFormat (String "P" r)) with (@None TimeMatch).
  unfold bind, ret, exec. cbv beta iota.
  destruct (parseVerboseFormat (String "P" r) st) as [[] st']. reflexivity.
Qed.

(** ** Formatter on whole numbers of microseconds *)

Lemma mod_chain (us : Z) :
  (((us mod 3600000000) mod 60000000) mod 1000000 = us mod 1000000)%Z.
Proof.
  rewrite (Z.mod_mod_divide _ 60000000 1000000) by (exists 60%Z; reflexivity).
  apply Z.mod_mod_divide. exists 3600%Z. reflexivity.
Qed.

Lemma decomposeTime_Z (x : Number) (us : Z) :
  x == inject_Z us -> (0 <= us)%Z ->
  tp_hours (decomposeTime x) = inject_Z (us / 3600000000)
  /\ tp_minutes (decomposeTime x) = inject_Z ((us mod 3600000000) / 60000000)
  /\ tp_seconds (decomposeTime x)
     = inject_Z (((us mod 3600000000) mod 60000000) / 1000000)
  /\ remainingMicros (decomposeTime x) == inject_Z (us mod 1000000)
  /\ isNegative (decomposeTime x) = false.
Proof.
  intros Hx Hus.
  assert (0 <= x) as Hx0.
  { rewrite Hx. change 0 with (inject_Z 0). rewrite <- Zle_Qle. exact Hus. }
  assert (Math_abs x == inject_Z us) as A0.
  { unfold Math_abs. rewrite (Qabs_pos x Hx0). exact Hx. }
  assert (MICROSECONDS_PER_HOUR == inject_Z 3600000000) as EH by reflexivity.
  assert (MICROSECONDS_PER_MINUTE == inject_Z 60000000) as EM by reflexivity.
  assert (MICROSECONDS_PER_SECOND == inject_Z 1000000) as ES by reflexivity.
  pose proof (rem_Z _ _ _ _ A0 EH Hus eq_refl) as R1.
  assert (0 <= us mod 3600000000)%Z as P1 by (apply Z.mod_pos_bound; lia).
  pose proof (rem_Z _ _ _ _ R1 EM P1 eq_refl) as R2.
  assert (0 <= (us mod 3600000000) mod 60000000)%Z as P2 by (apply Z.mod_pos_bound; lia).
  pose proof (rem_Z _ _ _ _ R2 ES P2 eq_refl) as R3.
  rewrite mod_chain in R3.
  unfold decomposeTime. cbn [tp_hours tp_minutes tp_seconds remainingMicros isNegative].
  repeat split.
  - exact (Math_floor_Z _ _ _ _ A0 EH).
  - exact (Math_floor_Z _ _ _ _ R1 EM).
  - exact (Math_floor_Z _ _ _ _ R2 ES).
  - exact R3.
  - apply lt_false. exact Hx0.
Qed.

Lemma timeText_Z (x : Number) (us : Z) :
  x == inject_Z us -> (0 <= us)%Z ->
  timeText (decomposeTime x)
  = Some (if (us mod 1000000 =? 0)%Z then clockText us
          else clockText us ++ "." ++ padStart 6 "0" (natToString (us mod 1000000))).
Proof.
  intros Hx Hus.
  destruct (decomposeTime_Z x us Hx Hus) as (Hh & Hm & Hs & Hr & Hn).
  assert (0 <= us mod 1000000)%Z as Pr by (apply Z.mod_pos_bound; lia).
  unfold timeText. rewrite Hh, Hm, Hs, Hn.
  rewrite !(numberToString_inject (inject_Z _) _ (Qeq_refl _)).
  cbn [obind].
  rewrite !intToString_nonneg;
    try (first [ apply Z.div_pos; [|lia] | idtac ]; try apply Z.mod_pos_bound; lia).
  destruct (Z.eqb_spec (us mod 1000000) 0) as [E | N].
  - assert (gt (remainingMicros (decomposeTime x)) 0 = false) as ->.
    { unfold gt. apply lt_false. rewrite Hr, E. apply Qle_refl. }
    reflexivity.
  - assert (gt (remainingMicros (decomposeTime x)) 0 = true) as ->.
    { unfold gt. apply lt_true. rewrite Hr. change 0 with (inject_Z 0).
      rewrite <- Zlt_Qlt. lia. }
    rewrite (numberToString_inject _ _ Hr). cbn [obind].
    rewrite intToString_nonneg by exact Pr. reflexivity.
Qed.

Lemma timeText_head (us : Number) (t : string) :
  0 <= us -> timeText (decomposeTime us) = Some t -> headIsDigit t.
Proof.
  intros H0 E. unfold timeText in E.
  set (t0 := decomposeTime us) in *.
  assert (isNegative t0 = false) as Hn by (apply lt_false; exact H0).
  assert (exists z, (0 <= z)%Z /\ tp_hours t0 = inject_Z z) as (z & Hz & Hh).
  { exists (Qfloor (Math_abs us / MICROSECONDS_PER_HOUR)). split; [|reflexivity].
    change 0%Z with (Qfloor 0). apply Qfloor_resp_le.
    apply Qle_shift_div_l; [reflexivity|]. rewrite Qmult_0_l. apply Qabs_nonneg. }
  rewrite Hh, Hn in E.
  rewrite (numberToString_inject _ z (Qeq_refl _)) in E. cbn [obind] in E.
  rewrite (intToString_nonneg z Hz) in E.
  destruct (numberToString (tp_minutes t0)) as [m|]; [|discriminate].
  destruct (numberToString (tp_seconds t0)) as [s|]; [|discriminate].
  cbn [obind] in E.
  assert (headIsDigit (padStart 2 "0" (natToString z) ++ ":" ++ padStart 2 "0" m
                       ++ ":" ++ padStart 2 "0" s)) as Hd.
  { apply headIsDigit_app, padStart_head, natToString_head. }
  destruct (gt (remainingMicros t0) 0).
  - destruct (numberToString (remainingMicros t0)) as [r|]; [|discriminate].
    cbn [obind] in E. injection E as <-. apply headIsDigit_app. exact Hd.
  - injection E as <-. exact Hd.
Qed.

(** * The claims *)

(** C1.  The round trip on ["1 day 1 hour"]: the canonical text is
    ["1 day 01:00:00"]; parsed again, it goes to the verbose grammar,
    which skips the token ["01:00:00"], and the hour is lost. *)
Theorem roundtrip_loses_the_time_part :
  let v := ofText "1 day 1 hour" in
  toPostgresString v = Some "1 day 01:00:00"
  /\ storage_eq (getStorage v) (mkStorage 0 1 (inject_Z 3600000000))
  /\ fst (tryParseTimeFormat "1 day 01:00:00" zeroStorage) = false
  /\ splitWhitespace "1 day 01:00:00" = ["1"; "day"; "01:00:00"]
  /\ verboseStep (0, false) "01:00:00" zeroStorage = ((0, false), zeroStorage)
  /\ storage_eq (getStorage (ofText "1 day 01:00:00")) (mkStorage 0 1 0)
  /\ storage_eqb (getStorage (ofText "1 day 01:00:00")) (getStorage v) = false.
Proof.
  cbv zeta. repeat split; vm_compute; reflexivity.
Qed.

(** The round trip also changes the sign of a negative field, by the
    same double application of the sign as in the verbose grammar. *)
Example roundtrip_flips_a_negative_day :
  toPostgresString (ofText "-P1D") = Some "-1 day"
  /\ storage_eq (getStorage (ofText "-P1D")) (mkStorage 0 (inject_Z (-1)) 0)
  /\ storage_eq (getStorage (ofText "-1 day")) (mkStorage 0 1 0).
Proof.
  repeat split; vm_compute; reflexivity.
Qed.

(** The round trip holds where the canonical text is a lone clock time
    or a list of non-negative units. *)
Example roundtrip_on_clock_and_units :
  toPostgresString (ofText "90 minutes") = Some "01:30:00"
  /\ storage_eqb (getStorage (ofText "01:30:00")) (getStorage (ofText "90 minutes")) = true
  /\ toPostgresString (ofText "14 months 3 days") = Some "1 year 2 mons 3 days"
  /\ storage_eqb (getStorage (ofText "1 year 2 mons 3 days"))
       (getStorage (ofText "14 months 3 days")) = true.
Proof.
  repeat split; vm_compute; reflexivity.
Qed.

(** C2.  The verbose grammar on a signed magnitude: [tryParseNumber]
    hands over the signed value together with the negative flag, and
    [tryParseUnit] multiplies the one by the other, so the sign cancels:
    ["1 year -2 months"] stores 14 months, and ["1 day -12 hours"] stores
    one day and plus twelve hours, where the sign-independent reading is
    10 months, and one day and minus twelve hours. *)
Theorem verbose_sign_is_applied_twice :
  tryParseNumber "-2" (fun value (_ : Number * bool) => (value, startsWith "-" "-2"))
    (0, false) = (true, (inject_Z (-2), true))
  /\ storage_eq (exec (tryParseUnit "months" (inject_Z (-2)) true) zeroStorage)
       (mkStorage (inject_Z 2) 0 0)
  /\ storage_eq (storage (ofText "1 year -2 months")) (mkStorage (inject_Z 14) 0 0)
  /\ storage_eq (getStorage (ofText "1 year -2 months")) (mkStorage (inject_Z 14) 0 0)
  /\ storage_eq (storage (ofText "1 day -12 hours"))
       (mkStorage 0 1 (inject_Z 43200000000))
  /\ storage_eq (getStorage (ofText "1 day -12 hours"))
       (mkStorage 0 1 (inject_Z 43200000000)).
Proof.
  split; [vm_compute; reflexivity|].
  repeat split; vm_compute; reflexivity.
Qed.

(** C3.  The normalizer on the value stored for ["-12:00:00"]: the day
    count is already floored by [Math.floor], and the correction meant
    for a truncating quotient is applied on top of it, so the snapshot
    holds [-2] days where [days + floor(microseconds / 86400000000)] is
    [-1]; the remainder is in range. *)
Theorem normalize_corrects_a_floored_quotient :
  let this := ofText "-12:00:00" in
  storage_eq (storage this) (mkStorage 0 0 (inject_Z (-43200000000)))
  /\ Math_floor (microseconds (storage this) / MICROSECONDS_PER_DAY) == inject_Z (-1)
  /\ storage_eq (getStorage this) (mkStorage 0 (inject_Z (-2)) (inject_Z 43200000000))
  /\ ~ days (getStorage this)
       == days (storage this)
          + Math_floor (microseconds (storage this) / MICROSECONDS_PER_DAY).
Proof.
  cbv zeta. split; [|split; [|split]].
  - vm_compute. repeat split; reflexivity.
  - vm_compute. reflexivity.
  - vm_compute. repeat split; reflexivity.
  - intro H. vm_compute in H. discriminate H.
Qed.

(** C4 (as amended).  For every input that begins with ["-P"], the
    recognizer strips the sign, hands what follows to the whole parser
    chain, negates each of the three fields of what that accumulated, and
    accepts: it never declines on such an input.  What follows the sign
    is parsed as ISO-8601 when it is an ISO-8601 duration, and by the
    verbose grammar when it is not. *)
Theorem negated_iso_dispatch (input : string) (st : IntervalStorage) :
  startsWith "-P" input = true ->
  let inner := exec (parse (slice1 input)) st in
  tryParseNegativeISO parse input st = (true, exec negateAllComponents inner)
  /\ parse input st = (tt, exec negateAllComponents inner)
  /\ months (exec (parse input) st) = - months inner
  /\ days (exec (parse input) st) = - days inner
  /\ microseconds (exec (parse input) st) = - microseconds inner
  /\ (forall m : ISOMatch,
        matchISO8601 (slice1 input) = Some m ->
        inner = exec (tryParseISO8601 (slice1 input)) st)
  /\ (matchISO8601 (slice1 input) = None ->
      inner = exec (parseVerboseFormat (slice1 input)) st).
Proof.
  intros Hp inner.
  assert (tryParseNegativeISO parse input st = (true, exec negateAllComponents inner)) as T.
  { unfold tryParseNegativeISO. rewrite Hp. cbn [negb].
    unfold bind, ret, inner, exec. cbv beta iota.
    destruct (parse (slice1 input) st) as [u st']. reflexivity. }
  assert (parse input st = (tt, exec negateAllComponents inner)) as P.
  { rewrite parse_unfold. unfold parseBody. unfold bind at 1. rewrite T. reflexivity. }
  split; [exact T|]. split; [exact P|].
  assert (exec (parse input) st = exec negateAllComponents inner) as ->
    by (unfold exec at 1; rewrite P; reflexivity).
  split; [reflexivity|]. split; [reflexivity|]. split; [reflexivity|].
  split.
  - intros m Hm. unfold inner. unfold exec at 1.
    rewrite (parse_iso _ m st Hm). reflexivity.
  - intro Hn. unfold inner.
    destruct (startsWith_minus_P input Hp) as [r ->].
    cbn [slice1] in Hn |- *. unfold exec at 1.
    rewrite (parse_P_verbose r st Hn). reflexivity.
Qed.

Lemma negated_iso_dispatch_witness :
  startsWith "-P" "-P1Y2M3DT4H5M6S" = true
  /\ parse "-P1Y2M3DT4H5M6S" zeroStorage
     = (tt, exec negateAllComponents (exec (parse "P1Y2M3DT4H5M6S") zeroStorage)).
Proof.
  split; [reflexivity|].
  exact (proj1 (proj2 (negated_iso_dispatch "-P1Y2M3DT4H5M6S" zeroStorage eq_refl))).
Defined.

(** C4, as stated, fails: on ["-P 1 day"] what follows the sign is not
    an ISO-8601 duration, and the recognizer does not decline. *)
Lemma negated_iso_declines_counterexample :
  ~ (startsWith "-P" "-P 1 day" = true ->
     matchISO8601 (slice1 "-P 1 day") <> None
     \/ fst (tryParseNegativeISO parse "-P 1 day" zeroStorage) = false).
Proof.
  intro H. destruct (H eq_refl) as [M | D].
  - apply M. reflexivity.
  - vm_compute in D. discriminate D.
Qed.

(** On that input the chain of the source stores minus one day; the
    chain with an anchored recognizer falls through to the verbose
    grammar, which stores one day. *)
Example negated_iso_on_verbose_text :
  storage_eq (exec (parse "-P 1 day") zeroStorage) (mkStorage 0 (inject_Z (-1)) 0)
  /\ storage_eq (exec (parse_anchored "-P 1 day") zeroStorage) (mkStorage 0 1 0).
Proof. split; vm_compute; repeat split; reflexivity. Qed.

(** C5.  ["P1Y2M3DT4H5M6.789S"] is taken by the ISO-8601 recognizer
    and its snapshot is 14 months, 3 days and 14706789000 microseconds. *)
Theorem iso_parse_scenario :
  fst (tryParseISO8601 "P1Y2M3DT4H5M6.789S" zeroStorage) = true
  /\ storage_eq (storage (ofText "P1Y2M3DT4H5M6.789S"))
       (exec (tryParseISO8601 "P1Y2M3DT4H5M6.789S") zeroStorage)
  /\ storage_eq (getStorage (ofText "P1Y2M3DT4H5M6.789S"))
       (mkStorage (inject_Z 14) (inject_Z 3) (inject_Z 14706789000))
  /\ inject_Z 14706789000
     == inject_Z 4 * MICROSECONDS_PER_HOUR + inject_Z 5 * MICROSECONDS_PER_MINUTE
        + inject_Z 6789000.
Proof.
  split; [vm_compute; reflexivity|].
  split; [vm_compute; repeat split; reflexivity|].
  split; [vm_compute; repeat split; reflexivity|].
  vm_compute. reflexivity.
Qed.

(** C6.  ["24 hours"] equals ["1 day"], both with the snapshot of one
    day; ["60 minutes"] and ["3600 seconds"] equal ["1 hour"];
    ["1 month 30 days"] equals ["30 days 1 month"]; ["1 month"] does not
    equal ["30 days"]. *)
Theorem unit_equivalence_under_equals :
  equals (ofText "24 hours") (ofText "1 day") = true
  /\ storage_eq (getStorage (ofText "24 hours")) (mkStorage 0 1 0)
  /\ storage_eq (getStorage (ofText "1 day")) (mkStorage 0 1 0)
  /\ equals (ofText "60 minutes") (ofText "1 hour") = true
  /\ equals (ofText "3600 seconds") (ofText "1 hour") = true
  /\ equals (ofText "1 month 30 days") (ofText "30 days 1 month") = true
  /\ equals (ofText "1 month") (ofText "30 days") = false.
Proof.
  repeat split; vm_compute; reflexivity.
Qed.

(** X18.  The fraction of the time part on whole microseconds.
    ["0 seconds"] renders as ["00:00:00"]; 123000 microseconds below
    the second render as [.123000]; and for every stored value whose
    microseconds is a whole number with a non-zero part below the
    second, the time part of the normalized value is the clock text, a
    dot, and that part left-padded with zeros to exactly six digits:
    [appendTime] pushes it and the text of [toPostgresString] ends with
    it. *)
Theorem zero_and_subsecond_rendering :
  toPostgresString (ofText "0 seconds") = Some "00:00:00"
  /\ toPostgresString (ofText "0.123 seconds") = Some "00:00:00.123000"
  /\ (forall (st : IntervalStorage) (u : Z),
        microseconds st == inject_Z u -> (u mod 1000000 <> 0)%Z ->
        let frac := padStart 6 "0" (natToString (u mod 1000000)) in
        let timeStr := clockText (u mod 86400000000) ++ "." ++ frac in
        String.length frac = 6%nat
        /\ forallb isDigit frac = true
        /\ (forall (parts : list string) (forceDisplay : bool),
              appendTime parts (microseconds (normalizeStorage st)) forceDisplay
              = Some (push parts timeStr))
        /\ (forall s : string,
              toPostgresString (mkInterval st) = Some s ->
              exists prefix, s = prefix ++ timeStr)).
Proof.
  split; [vm_compute; reflexivity|].
  split; [vm_compute; reflexivity|].
  intros st u Hu Hr frac timeStr.
  set (us := (u mod 86400000000)%Z).
  assert (0 <= us)%Z as Hus by (apply Z.mod_pos_bound; lia).
  assert (us mod 1000000 = u mod 1000000)%Z as Hsub.
  { apply Z.mod_mod_divide. exists 86400%Z. reflexivity. }
  pose proof (normalizeStorage_microseconds_Z st u Hu) as Hx. fold us in Hx.
  assert (forall (parts : list string) (forceDisplay : bool),
             appendTime parts (microseconds (normalizeStorage st)) forceDisplay
             = Some (push parts timeStr)) as Happend.
  { intros parts force. unfold appendTime.
    assert (seq (microseconds (normalizeStorage st)) 0 = false) as ->.
    { unfold seq. destruct (Qeq_bool (microseconds (normalizeStorage st)) 0) eqn:E;
        [|reflexivity].
      apply Qeq_bool_iff in E. rewrite Hx in E. change 0 with (inject_Z 0) in E.
      apply (proj1 (inject_Z_injective us 0)) in E.
      exfalso. apply Hr. rewrite <- Hsub, E. reflexivity. }
    cbn [andb]. rewrite (timeText_Z _ us Hx Hus). rewrite Hsub.
    destruct (Z.eqb_spec (u mod 1000000) 0) as [E | _]; [contradiction|].
    reflexivity. }
  split.
  { apply padStart_length. apply (natToString_length _ 5).
    change (10 ^ Z.of_nat 6)%Z with 1000000%Z. apply Z.mod_pos_bound. lia. }
  split; [apply padStart_digits, natToString_digits|].
  split; [exact Happend|].
  intros s E. unfold toPostgresString in E. cbn [storage] in E.
  destruct (appendYearsAndMonths [] (months (normalizeStorage st))) as [p1|];
    [|discriminate].
  cbn [obind] in E.
  destruct (appendDays p1 (days (normalizeStorage st))) as [p2|]; [|discriminate].
  cbn [obind] in E. rewrite Happend in E. cbn [obind] in E.
  destruct (join_push " " p2 timeStr) as [prefix Hj]. rewrite Hj in E.
  exists prefix.
  assert (isEmpty (prefix ++ timeStr) = false) as Hne.
  { unfold timeStr. rewrite <- append_assoc. apply isEmpty_app_cons. }
  rewrite Hne in E. congruence.
Qed.

Lemma zero_and_subsecond_rendering_witness :
  microseconds (mkStorage 0 0 (inject_Z 123000)) == inject_Z 123000
  /\ (123000 mod 1000000 <> 0)%Z
  /\ appendTime [] (microseconds (normalizeStorage (mkStorage 0 0 (inject_Z 123000)))) true
     = Some ["00:00:00.123000"]
  /\ toPostgresString (mkInterval (mkStorage 0 0 (inject_Z 123000)))
     = Some "00:00:00.123000"
  /\ (exists prefix, "00:00:00.123000" = prefix ++ "00:00:00.123000").
Proof.
  assert (123000 mod 1000000 <> 0)%Z as N by (intro H; discriminate H).
  pose proof (proj2 (proj2 zero_and_subsecond_rendering)
                (mkStorage 0 0 (inject_Z 123000)) 123000%Z (Qeq_refl _) N) as H.
  cbv zeta in H. destruct H as (_ & _ & Happend & Htext).
  split; [reflexivity|]. split; [exact N|].
  split; [exact (Happend [] true)|].
  split; [reflexivity|].
  exact (Htext "00:00:00.123000" eq_refl).
Defined.

(** C7.  The fraction of the time part is not always six digits.
    [addTime] rounds the microseconds of the seconds and leaves those
    of the hours and minutes as they are, so ["0.00048828125 hours"]
    (2^-11 of an hour) stores 1757812.5 microseconds.  The part below
    the second is then 757812.5, it is greater than zero, and
    [appendTime] prints its text after the dot: eight characters with a
    second dot, ["00:00:01.757812.5"].  The same count of microseconds
    given in seconds is rounded to 1757813 and renders with six digits;
    ["0 seconds"] renders as ["00:00:00"] and ["0.123 seconds"] with
    the fraction [.123000]. *)
Theorem subsecond_fraction_of_a_fractional_hour :
  let v := ofText "0.00048828125 hours" in
  let below := remainingMicros (decomposeTime (microseconds (getStorage v))) in
  storage_eq (getStorage v) (mkStorage 0 0 (3515625 # 2))
  /\ below == 1515625 # 2
  /\ gt below 0 = true
  /\ numberToString below = Some "757812.5"
  /\ padStart 6 "0" "757812.5" = "757812.5"
  /\ String.length (padStart 6 "0" "757812.5") = 8%nat
  /\ forallb isDigit (padStart 6 "0" "757812.5") = false
  /\ toPostgresString v = Some "00:00:01.757812.5"
  /\ storage_eq (getStorage (ofText "1.7578125 seconds"))
                (mkStorage 0 0 (inject_Z 1757813))
  /\ toPostgresString (ofText "1.7578125 seconds") = Some "00:00:01.757813"
  /\ toPostgresString (ofText "0 seconds") = Some "00:00:00"
  /\ toPostgresString (ofText "0.123 seconds") = Some "00:00:00.123000".
Proof.
  cbv zeta. repeat split; vm_compute; reflexivity.
Qed.

(** C8 (as amended).  [addMicroseconds], the seconds of [addTime] and
    each field of [multiply] are rounded by [Math.round]: to the nearest
    integer, a value half-way between two integers going to the one
    towards plus infinity.  That is round-half-away-from-zero for every
    non-negative value and for every value that is not half-way; a
    negative half-way value is rounded towards zero, one above what
    round-half-away-from-zero gives. *)
Theorem rounding_is_half_towards_plus_infinity (x : Number) :
  (exists n : Z, Math_round x = inject_Z n
     /\ inject_Z n - (1 # 2) <= x /\ x < inject_Z n + (1 # 2))
  /\ (0 <= x \/ isHalfway x = false -> Math_round x == roundHalfAwayFromZero x)
  /\ (x < 0 -> isHalfway x = true -> Math_round x == roundHalfAwayFromZero x + 1)
  /\ (forall st, microseconds (exec (addMicroseconds x) st)
                 = microseconds st + Math_round x)
  /\ (forall st hours minutes,
        microseconds (exec (addTime hours minutes x) st)
        = microseconds st
          + (hours * MICROSECONDS_PER_HOUR + minutes * MICROSECONDS_PER_MINUTE
             + Math_round (x * MICROSECONDS_PER_SECOND)))
  /\ (forall this,
        let norm := getStorage this in
        months (storage (multiply this x)) = Math_round (months norm * x)
        /\ days (storage (multiply this x)) = Math_round (days norm * x)
        /\ microseconds (storage (multiply this x)) = Math_round (microseconds norm * x)).
Proof.
  split; [apply Math_round_nearest|].
  split.
  { intros [Hx | Hh]; [apply Math_round_nonneg; exact Hx|].
    destruct (Qlt_le_dec x 0) as [Hneg | Hpos].
    - apply Math_round_neg_not_halfway; assumption.
    - apply Math_round_nonneg; exact Hpos. }
  split; [apply Math_round_neg_halfway|].
  repeat split.
Qed.

Lemma rounding_is_half_towards_plus_infinity_witness :
  (0 <= 5 # 2 \/ isHalfway (5 # 2) = false)
  /\ Math_round (5 # 2) == roundHalfAwayFromZero (5 # 2)
  /\ - (5 # 2) < 0 /\ isHalfway (- (5 # 2)) = true
  /\ Math_round (- (5 # 2)) == roundHalfAwayFromZero (- (5 # 2)) + 1.
Proof.
  assert (0 <= 5 # 2) as P by (intro H; discriminate H).
  assert (- (5 # 2) < 0) as N by reflexivity.
  split; [left; exact P|].
  split; [exact (proj1 (proj2 (rounding_is_half_towards_plus_infinity (5 # 2))) (or_introl P))|].
  split; [exact N|]. split; [reflexivity|].
  exact (proj1 (proj2 (proj2 (rounding_is_half_towards_plus_infinity (- (5 # 2)))))
           N eq_refl).
Defined.

(** C8, as stated, fails: one month scaled by [-2.5] is stored as [-2]
    months, where round-half-away-from-zero gives [-3]. *)
Lemma multiply_rounds_half_away_counterexample :
  ~ months (storage (multiply (ofText "1 month") (- (5 # 2))))
    == roundHalfAwayFromZero (months (getStorage (ofText "1 month")) * - (5 # 2)).
Proof. intro H. vm_compute in H. discriminate H. Qed.

Example multiply_minus_two_and_a_half :
  months (storage (multiply (ofText "1 month") (- (5 # 2)))) == inject_Z (-2)
  /\ roundHalfAwayFromZero (months (getStorage (ofText "1 month")) * - (5 # 2))
     == inject_Z (-3).
Proof. split; vm_compute; reflexivity. Qed.

(** C9.  ["2.5 days"] stores two and a half days and ["1.5 months"]
    one and a half months: the magnitude goes to [addDays] and
    [addMonths] as it is, and neither the stored field nor the field of
    the snapshot is an integer.  [addTime] rounds the seconds only, so
    ["0.00048828125 hours"] stores 1757812.5 microseconds. *)
Theorem fractional_days_and_months_are_stored :
  days (storage (ofText "2.5 days")) == 5 # 2
  /\ isInteger (days (storage (ofText "2.5 days"))) = false
  /\ isInteger (days (getStorage (ofText "2.5 days"))) = false
  /\ months (storage (ofText "1.5 months")) == 3 # 2
  /\ isInteger (months (storage (ofText "1.5 months"))) = false
  /\ isInteger (months (getStorage (ofText "1.5 months"))) = false
  /\ microseconds (storage (ofText "0.00048828125 hours")) == 3515625 # 2
  /\ isInteger (microseconds (getStorage (ofText "0.00048828125 hours"))) = false.
Proof.
  repeat split; vm_compute; reflexivity.
Qed.

(** C10.  For every stored value, the microseconds field of the
    normalized snapshot is non-negative, and it is below one day of
    microseconds when the stored microseconds is an integer; so
    [decomposeTime] never reports a negative time on the rendering path,
    and a time part pushed by [appendTime] for a normalized value begins
    with a digit, never with a minus sign; [toPostgresString] builds its
    time part by that call. *)
Theorem normalized_time_is_never_negative (st : IntervalStorage) :
  let us := microseconds (normalizeStorage st) in
  0 <= us
  /\ (isInteger (microseconds st) = true -> us < MICROSECONDS_PER_DAY)
  /\ isNegative (decomposeTime us) = false
  /\ (forall (parts : list string) (forceDisplay : bool) (out : list string),
        appendTime parts us forceDisplay = Some out ->
        out = parts
        \/ exists t, out = push parts t /\ headIsDigit t /\ startsWith "-" t = false)
  /\ (forall s : string,
        toPostgresString (mkInterval st) = Some s ->
        exists (parts out : list string) (forceDisplay : bool),
          appendTime parts us forceDisplay = Some out
          /\ s = (if isEmpty (join " " out) then "00:00:00" else join " " out)).
Proof.
  cbv zeta. rewrite normalizeStorage_microseconds.
  destruct (normalizeMicroseconds_range st) as [Hlo Hhi].
  repeat split.
  - exact Hlo.
  - intros _. exact Hhi.
  - apply lt_false. exact Hlo.
  - intros parts force out E. unfold appendTime in E.
    destruct (seq (snd (normalizeMicroseconds st)) 0 && negb force).
    + left. congruence.
    + right.
      destruct (timeText (decomposeTime (snd (normalizeMicroseconds st)))) as [t|] eqn:Et;
        [|discriminate].
      cbn [obind] in E. injection E as <-.
      exists t. pose proof (timeText_head _ _ Hlo Et) as Hd.
      split; [reflexivity | split; [exact Hd | apply headIsDigit_not_minus; exact Hd]].
  - intros s E. unfold toPostgresString in E. cbn [storage] in E.
    rewrite normalizeStorage_microseconds in E.
    destruct (appendYearsAndMonths [] (months (normalizeStorage st))) as [p1|];
      [|discriminate].
    cbn [obind] in E.
    destruct (appendDays p1 (days (normalizeStorage st))) as [p2|]; [|discriminate].
    cbn [obind] in E.
    match type of E with
    | context [appendTime p2 ?u ?f] =>
        destruct (appendTime p2 u f) as [p3|] eqn:E3; [|discriminate];
        exists p2, p3, f
    end.
    cbn [obind] in E. split; [exact E3 | congruence].
Qed.

Lemma normalized_time_is_never_negative_witness :
  isInteger (microseconds (mkStorage 0 0 (inject_Z (-1)))) = true
  /\ microseconds (normalizeStorage (mkStorage 0 0 (inject_Z (-1)))) < MICROSECONDS_PER_DAY
  /\ appendTime [] (microseconds (normalizeStorage (mkStorage 0 0 (inject_Z (-1))))) true
     = Some ["23:59:59.999999"]
  /\ ([ "23:59:59.999999" ] = []
      \/ exists t, ["23:59:59.999999"] = push [] t
                   /\ headIsDigit t /\ startsWith "-" t = false).
Proof.
  pose proof (normalized_time_is_never_negative (mkStorage 0 0 (inject_Z (-1)))) as H.
  cbv zeta in H. destruct H as (_ & Hup & _ & Hout & _).
  split; [reflexivity|]. split; [exact (Hup eq_refl)|].
  split; [reflexivity|]. exact (Hout [] true ["23:59:59.999999"] eq_refl).
Defined.

(** * Further properties of the class *)

(** ** Comparisons and remainders respect [===] *)

Lemma Qle_bool_comp (a a' b b' : Q) :
  a == a' -> b == b' -> Qle_bool a b = Qle_bool a' b'.
Proof.
  intros Ha Hb.
  destruct (Qle_bool a b) eqn:E1, (Qle_bool a' b') eqn:E2; try reflexivity.
  - apply Qle_bool_iff in E1. rewrite Ha, Hb in E1.
    apply Qle_bool_iff in E1. congruence.
  - apply Qle_bool_iff in E2. rewrite <- Ha, <- Hb in E2.
    apply Qle_bool_iff in E2. congruence.
Qed.

Lemma Qeq_bool_comp (a a' b b' : Q) :
  a == a' -> b == b' -> Qeq_bool a b = Qeq_bool a' b'.
Proof.
  intros Ha Hb.
  destruct (Qeq_bool a b) eqn:E1, (Qeq_bool a' b') eqn:E2; try reflexivity.
  - apply Qeq_bool_iff in E1. rewrite Ha, Hb in E1.
    apply Qeq_bool_iff in E1. congruence.
  - apply Qeq_bool_iff in E2. rewrite <- Ha, <- Hb in E2.
    apply Qeq_bool_iff in E2. congruence.
Qed.

Lemma rem_comp (a a' b : Q) : a == a' -> rem a b == rem a' b.
Proof.
  intro H. unfold rem, trunc.
  assert (a / b == a' / b) as E by (rewrite H; reflexivity).
  rewrite (Qle_bool_comp 0 0 (a / b) (a' / b) (Qeq_refl 0) E).
  assert (Qfloor (a / b) = Qfloor (a' / b)) as -> by (rewrite E; reflexivity).
  assert (Qceiling (a / b) = Qceiling (a' / b)) as -> by (rewrite E; reflexivity).
  destruct (Qle_bool 0 (a' / b)); rewrite H; reflexivity.
Qed.

Lemma normalizeMicroseconds_comp (st st' : IntervalStorage) :
  microseconds st == microseconds st' ->
  fst (normalizeMicroseconds st) == fst (normalizeMicroseconds st')
  /\ snd (normalizeMicroseconds st) == snd (normalizeMicroseconds st').
Proof.
  intro H. unfold normalizeMicroseconds, lt, sneq, Math_floor.
  rewrite (Qle_bool_comp 0 0 _ _ (Qeq_refl 0) H).
  rewrite (Qeq_bool_comp _ _ 0 0 (rem_comp _ _ MICROSECONDS_PER_DAY H) (Qeq_refl 0)).
  pose proof (rem_comp _ _ MICROSECONDS_PER_DAY H) as R.
  assert (Qfloor (microseconds st / MICROSECONDS_PER_DAY)
          = Qfloor (microseconds st' / MICROSECONDS_PER_DAY)) as ->
    by (rewrite H; reflexivity).
  destruct (negb (Qle_bool 0 (microseconds st'))
            && negb (Qeq_bool (rem (microseconds st') MICROSECONDS_PER_DAY) 0));
    cbn [fst snd]; rewrite R; split; reflexivity.
Qed.

Lemma normalizeStorage_comp (st st' : IntervalStorage) :
  storage_eq st st' -> storage_eq (normalizeStorage st) (normalizeStorage st').
Proof.
  intros (Hm & Hd & Hu).
  destruct (normalizeMicroseconds_comp st st' Hu) as [Hf Hs].
  unfold normalizeStorage.
  destruct (normalizeMicroseconds st) as [e r], (normalizeMicroseconds st') as [e' r'].
  cbn [fst snd] in Hf, Hs. unfold storage_eq. cbn [months days microseconds].
  rewrite Hm, Hd, Hf, Hs. repeat split; reflexivity.
Qed.

Lemma storage_eq_refl (a : IntervalStorage) : storage_eq a a.
Proof. repeat split; reflexivity. Qed.

Lemma storage_eq_sym (a b : IntervalStorage) : storage_eq a b -> storage_eq b a.
Proof. intros (A & B & C). repeat split; symmetry; assumption. Qed.

Lemma storage_eq_trans (a b c : IntervalStorage) :
  storage_eq a b -> storage_eq b c -> storage_eq a c.
Proof.
  intros (A & B & C) (A' & B' & C').
  repeat split; etransitivity; eassumption.
Qed.

Lemma equals_iff (a b : Interval) :
  equals a b = true <-> storage_eq (getStorage a) (getStorage b).
Proof.
  unfold equals, storage_eq, getStorage, seq.
  rewrite !andb_true_iff, !Qeq_bool_iff. tauto.
Qed.

(** ** Normalizer on a non-negative count of microseconds *)

Lemma Qfloor_small (x : Q) :
  0 <= x -> x < MICROSECONDS_PER_DAY -> Qfloor (x / MICROSECONDS_PER_DAY) = 0%Z.
Proof.
  intros Hlo Hhi. pose proof MICROSECONDS_PER_DAY_pos as HD.
  apply Qfloor_unique.
  - apply le_div_iff; [exact HD|]. rewrite Qmult_0_r. exact Hlo.
  - apply div_lt_iff; [exact HD|]. rewrite Qmult_1_r. exact Hhi.
Qed.

Lemma normalizeStorage_nonneg (st : IntervalStorage) :
  0 <= microseconds st ->
  months (normalizeStorage st) = months st
  /\ days (normalizeStorage st)
     = days st + Math_floor (microseconds st / MICROSECONDS_PER_DAY)
  /\ microseconds (normalizeStorage st)
     == microseconds st
        - MICROSECONDS_PER_DAY * Math_floor (microseconds st / MICROSECONDS_PER_DAY).
Proof.
  intro H. split; [apply normalizeStorage_months|]. split.
  - rewrite normalizeStorage_days. apply lt_false in H. rewrite H. reflexivity.
  - rewrite normalizeStorage_microseconds. apply normalizeMicroseconds_remainder.
Qed.

Lemma normalizeStorage_fixed (st : IntervalStorage) :
  0 <= microseconds st -> microseconds st < MICROSECONDS_PER_DAY ->
  storage_eq (normalizeStorage st) st.
Proof.
  intros Hlo Hhi. destruct (normalizeStorage_nonneg st Hlo) as (Hm & Hd & Hu).
  unfold storage_eq. rewrite Hm, Hd, Hu. unfold Math_floor.
  rewrite (Qfloor_small _ Hlo Hhi). repeat split; ring.
Qed.

Lemma getStorage_range (this : Interval) :
  0 <= microseconds (getStorage this)
  /\ microseconds (getStorage this) < MICROSECONDS_PER_DAY.
Proof.
  unfold getStorage. rewrite normalizeStorage_microseconds.
  apply normalizeMicroseconds_range.
Qed.


(** The snapshot of a stored value of whole numbers holds whole
    numbers. *)
Lemma normalizeStorage_whole (st : IntervalStorage) (m d u : Z) :
  storage_eq st (mkStorage (inject_Z m) (inject_Z d) (inject_Z u)) ->
  exists d' : Z,
    storage_eq (normalizeStorage st)
      (mkStorage (inject_Z m) (inject_Z d') (inject_Z (u mod 86400000000))).
Proof.
  intros (Hm & Hd & Hu). cbn [months days microseconds] in Hm, Hd, Hu.
  pose proof (normalizeStorage_microseconds_Z st u Hu) as Hx.
  pose proof (normalizeStorage_days st) as Hda.
  destruct (lt (microseconds st) 0 && sneq (rem (microseconds st) MICROSECONDS_PER_DAY) 0).
  - exists (d + (Qfloor (microseconds st / MICROSECONDS_PER_DAY) - 1))%Z.
    unfold storage_eq. cbn [months days microseconds].
    split; [rewrite normalizeStorage_months; exact Hm|]. split; [|exact Hx].
    rewrite Hda, Hd. unfold Math_floor, Zminus.
    rewrite !inject_Z_plus, inject_Z_opp. reflexivity.
  - exists (d + Qfloor (microseconds st / MICROSECONDS_PER_DAY))%Z.
    unfold storage_eq. cbn [months days microseconds].
    split; [rewrite normalizeStorage_months; exact Hm|]. split; [|exact Hx].
    rewrite Hda, Hd. unfold Math_floor. rewrite inject_Z_plus. reflexivity.
Qed.

(** X1.  On a stored value of whole numbers normalization is
    idempotent: the snapshot of the snapshot is the snapshot, and its
    fields are whole numbers again, the microseconds being the stored
    microseconds modulo one day.  When the stored microseconds is
    already within one day, the stored value is its own snapshot. *)
Theorem normalizeStorage_idempotent (st : IntervalStorage) (m d u : Z) :
  storage_eq st (mkStorage (inject_Z m) (inject_Z d) (inject_Z u)) ->
  storage_eq (normalizeStorage (normalizeStorage st)) (normalizeStorage st)
  /\ (exists d' : Z,
        storage_eq (normalizeStorage st)
          (mkStorage (inject_Z m) (inject_Z d') (inject_Z (u mod 86400000000))))
  /\ ((0 <= u < 86400000000)%Z -> storage_eq (normalizeStorage st) st).
Proof.
  intros H. pose proof H as (Hm & Hd & Hu).
  cbn [months days microseconds] in Hm, Hd, Hu.
  split; [|split].
  - destruct (normalizeMicroseconds_range st) as [Hlo Hhi].
    rewrite <- normalizeStorage_microseconds in Hlo, Hhi.
    apply normalizeStorage_fixed; assumption.
  - exact (normalizeStorage_whole st m d u H).
  - intros [Hlo Hhi].
    assert (MICROSECONDS_PER_DAY == inject_Z 86400000000) as ED by reflexivity.
    assert (0 <= microseconds st) as Qlo.
    { rewrite Hu. change 0 with (inject_Z 0). rewrite <- Zle_Qle. exact Hlo. }
    assert (microseconds st < MICROSECONDS_PER_DAY) as Qhi.
    { rewrite Hu, ED. rewrite <- Zlt_Qlt. exact Hhi. }
    destruct (normalizeStorage_nonneg st Qlo) as (Hm' & Hd' & Hu').
    unfold storage_eq. rewrite Hm', Hd', Hu'. unfold Math_floor.
    rewrite (Qfloor_small _ Qlo Qhi). repeat split; ring.
Qed.

Lemma normalizeStorage_idempotent_witness :
  storage_eq (mkStorage 1 2 (inject_Z 90000000000))
             (mkStorage (inject_Z 1) (inject_Z 2) (inject_Z 90000000000))
  /\ storage_eq (normalizeStorage (normalizeStorage (mkStorage 1 2 (inject_Z 90000000000))))
                (normalizeStorage (mkStorage 1 2 (inject_Z 90000000000))).
Proof.
  assert (storage_eq (mkStorage 1 2 (inject_Z 90000000000))
            (mkStorage (inject_Z 1) (inject_Z 2) (inject_Z 90000000000))) as H
    by (repeat split; reflexivity).
  split; [exact H|].
  exact (proj1 (normalizeStorage_idempotent _ 1 2 90000000000 H)).
Defined.

(** X2.  On a stored value of whole numbers whose microseconds is not
    negative, normalization moves the whole days of the microseconds
    into the days and keeps the months: the snapshot is
    [months], [days + microseconds div 86400000000] and
    [microseconds mod 86400000000], so the duration below the month,
    [days * 86400000000 + microseconds], is the same before and
    after. *)
Theorem normalizeStorage_preserves_duration (st : IntervalStorage) (m d u : Z) :
  storage_eq st (mkStorage (inject_Z m) (inject_Z d) (inject_Z u)) ->
  (0 <= u)%Z ->
  storage_eq (normalizeStorage st)
    (mkStorage (inject_Z m) (inject_Z (d + u / 86400000000))
               (inject_Z (u mod 86400000000)))
  /\ totalMicroseconds (normalizeStorage st) == totalMicroseconds st
  /\ totalMicroseconds st == inject_Z (d * 86400000000 + u).
Proof.
  intros (Hm & Hd & Hu) Hlo. cbn [months days microseconds] in Hm, Hd, Hu.
  assert (MICROSECONDS_PER_DAY == inject_Z 86400000000) as ED by reflexivity.
  assert (0 <= microseconds st) as Qlo.
  { rewrite Hu. change 0 with (inject_Z 0). rewrite <- Zle_Qle. exact Hlo. }
  destruct (normalizeStorage_nonneg st Qlo) as (Hm' & Hd' & Hu').
  split; [|split].
  - unfold storage_eq. cbn [months days microseconds].
    split; [rewrite Hm'; exact Hm|].
    split; [|exact (normalizeStorage_microseconds_Z st u Hu)].
    rewrite Hd', (Math_floor_Z _ _ _ _ Hu ED), Hd, inject_Z_plus. reflexivity.
  - unfold totalMicroseconds. rewrite Hd', Hu'. ring.
  - unfold totalMicroseconds. rewrite Hd, Hu, ED.
    rewrite inject_Z_plus, inject_Z_mult. reflexivity.
Qed.

Lemma normalizeStorage_preserves_duration_witness :
  storage_eq (mkStorage 0 1 (inject_Z 90000000000))
             (mkStorage (inject_Z 0) (inject_Z 1) (inject_Z 90000000000))
  /\ (0 <= 90000000000)%Z
  /\ storage_eq (normalizeStorage (mkStorage 0 1 (inject_Z 90000000000)))
                (mkStorage (inject_Z 0) (inject_Z (1 + 90000000000 / 86400000000))
                           (inject_Z (90000000000 mod 86400000000))).
Proof.
  assert (storage_eq (mkStorage 0 1 (inject_Z 90000000000))
            (mkStorage (inject_Z 0) (inject_Z 1) (inject_Z 90000000000))) as H
    by (repeat split; reflexivity).
  assert (0 <= 90000000000)%Z as P by (intro C; discriminate C).
  split; [exact H|]. split; [exact P|].
  exact (proj1 (normalizeStorage_preserves_duration _ 0 1 90000000000 H P)).
Defined.

(** ** Arithmetic *)

Lemma Qfloor_add_Z (x : Q) (n : Z) : Qfloor (x + inject_Z n) = (Qfloor x + n)%Z.
Proof.
  pose proof (Qfloor_le x) as H1. pose proof (Qlt_floor x) as H2.
  rewrite inject_Z_plus in H2. change (inject_Z 1) with 1 in H2.
  apply Qfloor_unique.
  - rewrite inject_Z_plus. lra.
  - rewrite !inject_Z_plus. change (inject_Z 1) with 1. lra.
Qed.

Lemma Math_round_Z (n : Z) : Math_round (inject_Z n) = inject_Z n.
Proof.
  unfold Math_round. f_equal. apply Qfloor_unique.
  - lra.
  - rewrite inject_Z_plus. change (inject_Z 1) with 1. lra.
Qed.

Lemma Math_round_comp (x y : Number) : x == y -> Math_round x = Math_round y.
Proof. intro H. unfold Math_round. rewrite H. reflexivity. Qed.


(** The snapshot of a sum whose first operand is a snapshot. *)
Lemma normalize_after_add (p : IntervalStorage) (M d y : Number) :
  0 <= microseconds p -> 0 <= y ->
  let total := microseconds p + y in
  let carry := Math_floor (total / MICROSECONDS_PER_DAY) in
  storage_eq
    (normalizeStorage (mkStorage (months (normalizeStorage p) + M)
                                 (days (normalizeStorage p) + d)
                                 (microseconds (normalizeStorage p) + y)))
    (mkStorage (months p + M) (days p + d + carry)
               (total - MICROSECONDS_PER_DAY * carry)).
Proof.
  intros Hp Hy total carry.
  destruct (normalizeStorage_nonneg p Hp) as (Hm & Hd & Hu).
  destruct (normalizeMicroseconds_range p) as [Rlo _].
  rewrite <- normalizeStorage_microseconds in Rlo.
  set (q := mkStorage (months (normalizeStorage p) + M) (days (normalizeStorage p) + d)
                      (microseconds (normalizeStorage p) + y)).
  assert (0 <= microseconds q) as Hq by (cbn [q microseconds]; lra).
  destruct (normalizeStorage_nonneg q Hq) as (Qm & Qd & Qu).
  set (D := MICROSECONDS_PER_DAY) in *.
  pose proof MICROSECONDS_PER_DAY_pos as HD. fold D in HD.
  set (f := Qfloor (microseconds p / D)) in *.
  assert (microseconds q / D == total / D + inject_Z (- f)) as E.
  { cbn [q microseconds]. rewrite Hu. unfold Math_floor, total. fold f.
    rewrite inject_Z_opp. field. lra. }
  assert (Qfloor (microseconds q / D) = (Qfloor (total / D) - f)%Z) as F.
  { rewrite E, Qfloor_add_Z. reflexivity. }
  unfold storage_eq. cbn [months days microseconds].
  rewrite Qm, Qd, Qu. unfold Math_floor. rewrite F.
  cbn [q months days microseconds]. rewrite Hm, Hd, Hu.
  unfold carry, Math_floor, total. fold f.
  unfold Zminus. rewrite inject_Z_plus, inject_Z_opp.
  repeat split; ring.
Qed.

Lemma add_storage (a b : Interval) :
  storage (add a b)
  = mkStorage (months (getStorage a) + months (getStorage b))
              (days (getStorage a) + days (getStorage b))
              (microseconds (getStorage a) + microseconds (getStorage b)).
Proof. reflexivity. Qed.

(** The snapshot of a sum of whole numbers. *)
Lemma add_whole (a b : Interval) (ma da ua mb db ub : Z) :
  storage_eq (getStorage a) (mkStorage (inject_Z ma) (inject_Z da) (inject_Z ua)) ->
  storage_eq (getStorage b) (mkStorage (inject_Z mb) (inject_Z db) (inject_Z ub)) ->
  storage_eq (getStorage (add a b))
    (mkStorage (inject_Z (ma + mb))
               (inject_Z (da + db + (ua + ub) / 86400000000))
               (inject_Z ((ua + ub) mod 86400000000))).
Proof.
  intros (Hma & Hda & Hua) (Hmb & Hdb & Hub).
  cbn [months days microseconds] in Hma, Hda, Hua, Hmb, Hdb, Hub.
  assert (MICROSECONDS_PER_DAY == inject_Z 86400000000) as ED by reflexivity.
  destruct (getStorage_range a) as [La _], (getStorage_range b) as [Lb _].
  assert (0 <= microseconds (storage (add a b))) as Hs.
  { rewrite add_storage. cbn [microseconds]. lra. }
  assert (microseconds (storage (add a b)) == inject_Z (ua + ub)) as Hsum.
  { rewrite add_storage. cbn [microseconds]. rewrite Hua, Hub, inject_Z_plus. reflexivity. }
  destruct (normalizeStorage_nonneg _ Hs) as (Hm & Hd & Hu).
  unfold getStorage at 1. unfold storage_eq. cbn [months days microseconds].
  split; [|split].
  - rewrite Hm, add_storage. cbn [months]. rewrite Hma, Hmb, inject_Z_plus. reflexivity.
  - rewrite Hd, (Math_floor_Z _ _ _ _ Hsum ED), add_storage. cbn [days].
    rewrite Hda, Hdb, !inject_Z_plus. reflexivity.
  - exact (normalizeStorage_microseconds_Z _ _ Hsum).
Qed.

(** X3.  The sum of two values whose snapshots hold whole numbers.
    The snapshot of what [add] returns has the months of both
    operands, their days plus the whole days carried out of the summed
    microseconds, and the summed microseconds modulo one day; its
    duration below the month is the sum of theirs, and its
    microseconds is within one day. *)
Theorem add_snapshot (a b : Interval) (ma da ua mb db ub : Z) :
  storage_eq (getStorage a) (mkStorage (inject_Z ma) (inject_Z da) (inject_Z ua)) ->
  storage_eq (getStorage b) (mkStorage (inject_Z mb) (inject_Z db) (inject_Z ub)) ->
  storage_eq (getStorage (add a b))
    (mkStorage (inject_Z (ma + mb))
               (inject_Z (da + db + (ua + ub) / 86400000000))
               (inject_Z ((ua + ub) mod 86400000000)))
  /\ totalMicroseconds (getStorage (add a b))
     == totalMicroseconds (getStorage a) + totalMicroseconds (getStorage b)
  /\ 0 <= microseconds (getStorage (add a b)) < MICROSECONDS_PER_DAY.
Proof.
  intros Ha Hb.
  destruct (getStorage_range a) as [La _], (getStorage_range b) as [Lb _].
  assert (0 <= microseconds (storage (add a b))) as Hs.
  { rewrite add_storage. cbn [microseconds]. lra. }
  destruct (normalizeStorage_nonneg _ Hs) as (Hm & Hd & Hu).
  split; [|split; [|apply getStorage_range]].
  - exact (add_whole a b ma da ua mb db ub Ha Hb).
  - unfold getStorage at 1. unfold totalMicroseconds at 1.
    rewrite Hd, Hu, add_storage. cbn [days microseconds].
    unfold totalMicroseconds. ring.
Qed.

Lemma add_snapshot_witness :
  storage_eq (getStorage (ofText "1 day 20 hours"))
             (mkStorage (inject_Z 0) (inject_Z 1) (inject_Z 72000000000))
  /\ storage_eq (getStorage (ofText "10 hours"))
                (mkStorage (inject_Z 0) (inject_Z 0) (inject_Z 36000000000))
  /\ storage_eq (getStorage (add (ofText "1 day 20 hours") (ofText "10 hours")))
       (mkStorage (inject_Z (0 + 0))
                  (inject_Z (1 + 0 + (72000000000 + 36000000000) / 86400000000))
                  (inject_Z ((72000000000 + 36000000000) mod 86400000000))).
Proof.
  assert (storage_eq (getStorage (ofText "1 day 20 hours"))
            (mkStorage (inject_Z 0) (inject_Z 1) (inject_Z 72000000000))) as Ha
    by (repeat split; reflexivity).
  assert (storage_eq (getStorage (ofText "10 hours"))
            (mkStorage (inject_Z 0) (inject_Z 0) (inject_Z 36000000000))) as Hb
    by (repeat split; reflexivity).
  split; [exact Ha|]. split; [exact Hb|].
  exact (proj1 (add_snapshot _ _ 0 1 72000000000 0 0 36000000000 Ha Hb)).
Defined.

(** X4.  On values whose snapshots hold whole numbers [add] is
    commutative and associative up to [equals], and the snapshot of a
    sum of three has the summed months, the summed days plus the whole
    days of the summed microseconds, and the summed microseconds
    modulo one day. *)
Theorem add_commutative_associative (a b c : Interval)
    (m1 d1 u1 m2 d2 u2 m3 d3 u3 : Z) :
  storage_eq (getStorage a) (mkStorage (inject_Z m1) (inject_Z d1) (inject_Z u1)) ->
  storage_eq (getStorage b) (mkStorage (inject_Z m2) (inject_Z d2) (inject_Z u2)) ->
  storage_eq (getStorage c) (mkStorage (inject_Z m3) (inject_Z d3) (inject_Z u3)) ->
  equals (add a b) (add b a) = true
  /\ equals (add (add a b) c) (add a (add b c)) = true
  /\ storage_eq (getStorage (add (add a b) c))
       (mkStorage (inject_Z (m1 + m2 + m3))
                  (inject_Z (d1 + d2 + d3 + (u1 + u2 + u3) / 86400000000))
                  (inject_Z ((u1 + u2 + u3) mod 86400000000))).
Proof.
  intros Ha Hb Hc. split; [|split].
  3: {
    pose proof (add_whole _ _ _ _ _ _ _ _ (add_whole _ _ _ _ _ _ _ _ Ha Hb) Hc)
      as (Em & Ed & Eu).
    cbn [months days microseconds] in Em, Ed, Eu.
    unfold storage_eq. cbn [months days microseconds].
    assert (((u1 + u2) mod 86400000000 + u3) / 86400000000
            = (u1 + u2 + u3) / 86400000000 - (u1 + u2) / 86400000000)%Z as Q1.
    { rewrite (Z.div_mod (u1 + u2) 86400000000) at 2 by lia.
      replace (86400000000 * ((u1 + u2) / 86400000000) + (u1 + u2) mod 86400000000 + u3)%Z
        with ((u1 + u2) mod 86400000000 + u3 + (u1 + u2) / 86400000000 * 86400000000)%Z
        by ring.
      rewrite Z.div_add by lia. ring. }
    assert (((u1 + u2) mod 86400000000 + u3) mod 86400000000
            = (u1 + u2 + u3) mod 86400000000)%Z as Q2.
    { rewrite (Z.div_mod (u1 + u2) 86400000000) at 2 by lia.
      replace (86400000000 * ((u1 + u2) / 86400000000) + (u1 + u2) mod 86400000000 + u3)%Z
        with ((u1 + u2) mod 86400000000 + u3 + (u1 + u2) / 86400000000 * 86400000000)%Z
        by ring.
      rewrite Z.mod_add by lia. reflexivity. }
    split; [exact Em|]. split.
    - rewrite Ed, Q1.
      assert (d1 + d2 + (u1 + u2) / 86400000000 + d3
              + ((u1 + u2 + u3) / 86400000000 - (u1 + u2) / 86400000000)
              = d1 + d2 + d3 + (u1 + u2 + u3) / 86400000000)%Z as -> by ring.
      reflexivity.
    - rewrite Eu, Q2. reflexivity. }
  - apply equals_iff. unfold getStorage. apply normalizeStorage_comp.
    rewrite !add_storage. unfold storage_eq. cbn [months days microseconds].
    repeat split; ring.
  - apply equals_iff.
    destruct (getStorage_range a) as [La _], (getStorage_range b) as [Lb _],
             (getStorage_range c) as [Lc _].
    assert (0 <= microseconds (storage (add a b))) as Hab
      by (rewrite add_storage; cbn [microseconds]; lra).
    assert (0 <= microseconds (storage (add b c))) as Hbc
      by (rewrite add_storage; cbn [microseconds]; lra).
    pose proof (normalize_after_add (storage (add a b)) (months (getStorage c))
                  (days (getStorage c)) (microseconds (getStorage c)) Hab Lc) as L.
    pose proof (normalize_after_add (storage (add b c)) (months (getStorage a))
                  (days (getStorage a)) (microseconds (getStorage a)) Hbc La) as R.
    cbv zeta in L, R.
    assert (storage_eq (getStorage (add a (add b c)))
              (normalizeStorage
                 (mkStorage (months (normalizeStorage (storage (add b c))) + months (getStorage a))
                            (days (normalizeStorage (storage (add b c))) + days (getStorage a))
                            (microseconds (normalizeStorage (storage (add b c)))
                             + microseconds (getStorage a))))) as Swap.
    { unfold getStorage at 1. apply normalizeStorage_comp.
      rewrite (add_storage a (add b c)). unfold getStorage at 2 4 6.
      unfold storage_eq. cbn [months days microseconds]. repeat split; ring. }
    apply (storage_eq_trans _ _ _ L).
    apply storage_eq_sym. apply (storage_eq_trans _ _ _ Swap).
    apply (storage_eq_trans _ _ _ R).
    rewrite !add_storage. unfold storage_eq. cbn [months days microseconds].
    set (ma := microseconds (getStorage a)).
    set (mb := microseconds (getStorage b)).
    set (mc := microseconds (getStorage c)).
    assert (Math_floor ((mb + mc + ma) / MICROSECONDS_PER_DAY)
            = Math_floor ((ma + mb + mc) / MICROSECONDS_PER_DAY)) as ->.
    { unfold Math_floor. f_equal.
      assert ((mb + mc + ma) / MICROSECONDS_PER_DAY == (ma + mb + mc) / MICROSECONDS_PER_DAY) as E
        by (apply Qmult_comp; [ring | reflexivity]).
      rewrite E. reflexivity. }
    repeat split; ring.
Qed.

Lemma add_commutative_associative_witness :
  storage_eq (getStorage (ofText "1 day"))
             (mkStorage (inject_Z 0) (inject_Z 1) (inject_Z 0))
  /\ storage_eq (getStorage (ofText "20 hours"))
                (mkStorage (inject_Z 0) (inject_Z 0) (inject_Z 72000000000))
  /\ storage_eq (getStorage (ofText "1 month 10 hours"))
                (mkStorage (inject_Z 1) (inject_Z 0) (inject_Z 36000000000))
  /\ equals (add (ofText "1 day") (ofText "20 hours"))
            (add (ofText "20 hours") (ofText "1 day")) = true
  /\ equals (add (add (ofText "1 day") (ofText "20 hours")) (ofText "1 month 10 hours"))
            (add (ofText "1 day") (add (ofText "20 hours") (ofText "1 month 10 hours")))
     = true.
Proof.
  assert (storage_eq (getStorage (ofText "1 day"))
            (mkStorage (inject_Z 0) (inject_Z 1) (inject_Z 0))) as Ha
    by (repeat split; reflexivity).
  assert (storage_eq (getStorage (ofText "20 hours"))
            (mkStorage (inject_Z 0) (inject_Z 0) (inject_Z 72000000000))) as Hb
    by (repeat split; reflexivity).
  assert (storage_eq (getStorage (ofText "1 month 10 hours"))
            (mkStorage (inject_Z 1) (inject_Z 0) (inject_Z 36000000000))) as Hc
    by (repeat split; reflexivity).
  split; [exact Ha|]. split; [exact Hb|]. split; [exact Hc|].
  pose proof (add_commutative_associative _ _ _ 0 1 0 0 0 72000000000 1 0 36000000000
                Ha Hb Hc) as (Hcomm & Hassoc & _).
  split; [exact Hcomm | exact Hassoc].
Defined.



(** X6.  [equals] is an equivalence relation, and [add], [subtract]
    and [multiply] give equal results on equal operands. *)
Theorem equals_is_a_congruence (a a' b b' c : Interval) (factor : Number) :
  equals a a = true
  /\ equals a b = equals b a
  /\ (equals a b = true -> equals b c = true -> equals a c = true)
  /\ (equals a a' = true -> equals b b' = true ->
      equals (add a b) (add a' b') = true
      /\ equals (subtract a b) (subtract a' b') = true
      /\ equals (multiply a factor) (multiply a' factor) = true).
Proof.
  split; [apply equals_iff, storage_eq_refl|].
  split.
  { destruct (equals a b) eqn:E1, (equals b a) eqn:E2; try reflexivity.
    - apply equals_iff, storage_eq_sym, equals_iff in E1. congruence.
    - apply equals_iff, storage_eq_sym, equals_iff in E2. congruence. }
  split.
  { intros H1 H2. apply equals_iff.
    apply (storage_eq_trans _ (getStorage b)); apply equals_iff; assumption. }
  intros Ha Hb. apply equals_iff in Ha. apply equals_iff in Hb.
  destruct Ha as (Am & Ad & Au), Hb as (Bm & Bd & Bu).
  split; [|split]; apply equals_iff; unfold getStorage at 1 2;
    apply normalizeStorage_comp.
  - rewrite !add_storage. unfold storage_eq. cbn [months days microseconds].
    rewrite Am, Ad, Au, Bm, Bd, Bu. repeat split; reflexivity.
  - unfold subtract, newInterval, storage_eq. cbn [storage months days microseconds].
    fold (getStorage a) (getStorage a') (getStorage b) (getStorage b').
    rewrite Am, Ad, Au, Bm, Bd, Bu. repeat split; reflexivity.
  - unfold multiply, newInterval, storage_eq. cbn [storage months days microseconds].
    fold (getStorage a) (getStorage a').
    rewrite (Math_round_comp (months (getStorage a) * factor)
                             (months (getStorage a') * factor)) by (rewrite Am; reflexivity).
    rewrite (Math_round_comp (days (getStorage a) * factor)
                             (days (getStorage a') * factor)) by (rewrite Ad; reflexivity).
    rewrite (Math_round_comp (microseconds (getStorage a) * factor)
                             (microseconds (getStorage a') * factor)) by (rewrite Au; reflexivity).
    repeat split; reflexivity.
Qed.

Lemma equals_is_a_congruence_witness :
  equals (ofText "24 hours") (ofText "1 day") = true
  /\ equals (ofText "60 minutes") (ofText "1 hour") = true
  /\ equals (ofText "24 hours") (ofText "PT24H") = true
  /\ equals (ofText "1 day") (ofText "PT24H") = true
  /\ equals (add (ofText "24 hours") (ofText "60 minutes"))
            (add (ofText "1 day") (ofText "1 hour")) = true.
Proof.
  pose proof (equals_is_a_congruence (ofText "24 hours") (ofText "1 day")
                (ofText "60 minutes") (ofText "1 hour") (ofText "PT24H") 2) as H.
  destruct H as (_ & Hs & _ & Hc).
  pose proof (equals_is_a_congruence (ofText "1 day") (ofText "1 day")
                (ofText "24 hours") (ofText "24 hours") (ofText "PT24H") 2) as H'.
  destruct H' as (_ & _ & Ht & _).
  assert (equals (ofText "24 hours") (ofText "1 day") = true) as E1 by reflexivity.
  assert (equals (ofText "60 minutes") (ofText "1 hour") = true) as E2 by reflexivity.
  assert (equals (ofText "24 hours") (ofText "PT24H") = true) as E3 by reflexivity.
  assert (equals (ofText "1 day") (ofText "24 hours") = true) as E4 by reflexivity.
  split; [exact E1|]. split; [exact E2|]. split; [exact E3|].
  split; [exact (Ht E4 E3)|].
  exact (proj1 (Hc E1 E2)).
Defined.

(** X7.  Scaling by a whole number is exact on a value whose snapshot
    holds whole numbers: every field of the product is the field of the
    snapshot times the factor.  Scaling by zero gives the zero interval
    for every value. *)
Theorem multiply_by_integer (this : Interval) (k m d u : Z) :
  (storage_eq (getStorage this) (mkStorage (inject_Z m) (inject_Z d) (inject_Z u)) ->
   storage_eq (storage (multiply this (inject_Z k)))
              (mkStorage (inject_Z (m * k)) (inject_Z (d * k)) (inject_Z (u * k))))
  /\ storage_eq (storage (multiply this 0)) zeroStorage.
Proof.
  split.
  - intros (Hm & Hd & Hu).
    unfold multiply, newInterval, storage_eq. cbn [storage months days microseconds].
    fold (getStorage this).
    rewrite (Math_round_comp (months (getStorage this) * inject_Z k) (inject_Z (m * k)))
      by (rewrite Hm, inject_Z_mult; reflexivity).
    rewrite (Math_round_comp (days (getStorage this) * inject_Z k) (inject_Z (d * k)))
      by (rewrite Hd, inject_Z_mult; reflexivity).
    rewrite (Math_round_comp (microseconds (getStorage this) * inject_Z k) (inject_Z (u * k)))
      by (rewrite Hu, inject_Z_mult; reflexivity).
    rewrite !Math_round_Z. repeat split; reflexivity.
  - unfold multiply, newInterval, storage_eq, zeroStorage.
    cbn [storage months days microseconds].
    rewrite !(Math_round_comp (_ * 0) (inject_Z 0)) by (rewrite Qmult_0_r; reflexivity).
    rewrite Math_round_Z. repeat split; reflexivity.
Qed.

Lemma multiply_by_integer_witness :
  storage_eq (getStorage (ofText "1 year 2 months"))
             (mkStorage (inject_Z 14) (inject_Z 0) (inject_Z 0))
  /\ storage_eq (storage (multiply (ofText "1 year 2 months") (inject_Z 2)))
                (mkStorage (inject_Z (14 * 2)) (inject_Z (0 * 2)) (inject_Z (0 * 2))).
Proof.
  assert (storage_eq (getStorage (ofText "1 year 2 months"))
            (mkStorage (inject_Z 14) (inject_Z 0) (inject_Z 0))) as H
    by (repeat split; reflexivity).
  split; [exact H|].
  exact (proj1 (multiply_by_integer (ofText "1 year 2 months") 2 14 0 0) H).
Defined.

(** ** Parser *)

Lemma trimStart_whitespace (s : string) :
  forallb isWhitespace s = true -> trimStart s = EmptyString.
Proof.
  induction s as [|c r IH]; intro H; [reflexivity|].
  cbn [forallb] in H. apply andb_true_iff in H. destruct H as [Hc Hr].
  cbn [trimStart]. rewrite Hc. apply IH. exact Hr.
Qed.

(** X8.  A text that is empty or all white space constructs the zero
    interval. *)
Theorem blank_text_is_zero (text : string) :
  forallb isWhitespace text = true -> storage (ofText text) = zeroStorage.
Proof.
  intro H. unfold ofText, newInterval.
  destruct (isEmpty text); [reflexivity|].
  unfold trim. rewrite (trimStart_whitespace text H). reflexivity.
Qed.

Lemma blank_text_is_zero_witness :
  forallb isWhitespace "   " = true /\ storage (ofText "   ") = zeroStorage.
Proof.
  split; [reflexivity|]. exact (blank_text_is_zero "   " eq_refl).
Defined.

Lemma verboseStep_unrecognized (locals : Number * bool) (part : string)
    (st : IntervalStorage) :
  recognized part = false -> verboseStep locals part st = (locals, st).
Proof.
  unfold recognized. intro H.
  apply orb_false_iff in H. destruct H as [H Hu].
  apply orb_false_iff in H. destruct H as [Hs Hn].
  unfold verboseStep. destruct locals as [currentValue isNeg].
  rewrite Hs. unfold tryParseNumber. rewrite Hn. cbn [negb].
  unfold tryParseUnit.
  destruct (isUnitText part); cbn [negb andb] in Hu |- *.
  - destruct (getCanonicalUnit (dropFinalS part)); [discriminate Hu|]. reflexivity.
  - reflexivity.
Qed.

(** X9.  The verbose grammar ignores every token that is not a lone
    minus sign, a number or a known unit name: the loop gives the result
    it gives on the tokens without them, and a text with no recognized
    token leaves the storage as it was. *)
Theorem verbose_ignores_unrecognized_tokens :
  (forall (parts : list string) (locals : Number * bool) (st : IntervalStorage),
      forOf verboseStep locals parts st
      = forOf verboseStep locals (List.filter recognized parts) st)
  /\ (forall (input : string) (st : IntervalStorage),
        List.forallb (fun part => negb (recognized part)) (splitWhitespace input) = true ->
        parseVerboseFormat input st = (tt, st)).
Proof.
  assert (forall (parts : list string) (locals : Number * bool) (st : IntervalStorage),
             forOf verboseStep locals parts st
             = forOf verboseStep locals (List.filter recognized parts) st) as F.
  { induction parts as [|p ps IH]; intros locals st; [reflexivity|].
    cbn [List.filter forOf]. destruct (recognized p) eqn:R.
    - cbn [forOf]. unfold bind. destruct (verboseStep locals p st) as [l' st'].
      apply IH.
    - unfold bind at 1. rewrite (verboseStep_unrecognized locals p st R). apply IH. }
  split; [exact F|].
  intros input st H. unfold parseVerboseFormat. unfold bind at 1. rewrite F.
  assert (List.filter recognized (splitWhitespace input) = []) as ->.
  { induction (splitWhitespace input) as [|p ps IH]; [reflexivity|].
    cbn [List.forallb] in H. apply andb_true_iff in H. destruct H as [Hp Hps].
    cbn [List.filter]. apply negb_true_iff in Hp. rewrite Hp. apply IH. exact Hps. }
  reflexivity.
Qed.

Lemma verbose_ignores_unrecognized_tokens_witness :
  List.forallb (fun part => negb (recognized part)) (splitWhitespace "about 3pm, 04:05:06")
  = true
  /\ parseVerboseFormat "about 3pm, 04:05:06" (mkStorage 1 2 3) = (tt, mkStorage 1 2 3).
Proof.
  split; [reflexivity|].
  exact (proj2 verbose_ignores_unrecognized_tokens "about 3pm, 04:05:06"
           (mkStorage 1 2 3) eq_refl).
Defined.




(** X11.  A token that is a key of the alias table is accepted by
    [tryParseUnit] with the unit the table gives it, except the keys
    ["s"], ["ms"] and ["us"]: the final [s] is stripped before the
    lookup, what is left is no key, and the token is declined with the
    storage untouched. *)
Theorem alias_keys_as_tokens (key canonicalUnit : string) (value : Number)
    (isNeg : bool) (st : IntervalStorage) :
  In (key, canonicalUnit) UNIT_ALIASES ->
  if existsb (String.eqb key) ["s"; "ms"; "us"]
  then tryParseUnit key value isNeg st = (false, st)
  else isUnitText key = true
       /\ getCanonicalUnit (dropFinalS key) = Some canonicalUnit
       /\ fst (tryParseUnit key value isNeg st) = true.
Proof.
  unfold UNIT_ALIASES. cbn [In]. intro H.
  repeat (destruct H as [H | H];
          [injection H as <- <-;
           first [ reflexivity
                 | split; [reflexivity | split; [reflexivity|]];
                   unfold tryParseUnit, bind;
                   match goal with
                   | |- context [isUnitText ?k] =>
                       change (isUnitText k) with true;
                       match goal with
                       | |- context [getCanonicalUnit ?b] =>
                           let r := eval vm_compute in (getCanonicalUnit b) in
                           change (getCanonicalUnit b) with r
                       end
                   end;
                   cbn [negb];
                   match goal with
                   | |- context [addValueWithUnit ?c ?v ?s] =>
                       destruct (addValueWithUnit c v s)
                   end; reflexivity ] |]).
  contradiction.
Qed.

Lemma alias_keys_as_tokens_witness :
  In ("ms", "millisecond") UNIT_ALIASES
  /\ tryParseUnit "ms" (inject_Z 5) false zeroStorage = (false, zeroStorage)
  /\ In ("msecs", "millisecond") UNIT_ALIASES
  /\ fst (tryParseUnit "msecs" (inject_Z 5) false zeroStorage) = true.
Proof.
  assert (In ("ms", "millisecond") UNIT_ALIASES) as A
    by (unfold UNIT_ALIASES; cbn [In]; repeat (first [left; reflexivity | right])).
  assert (In ("msecs", "millisecond") UNIT_ALIASES) as B
    by (unfold UNIT_ALIASES; cbn [In]; repeat (first [left; reflexivity | right])).
  split; [exact A|].
  split; [exact (alias_keys_as_tokens "ms" "millisecond" (inject_Z 5) false zeroStorage A)|].
  split; [exact B|].
  exact (proj2 (proj2 (alias_keys_as_tokens "msecs" "millisecond" (inject_Z 5) false
                         zeroStorage B))).
Defined.

(** *** Signs of what the recognizers accumulate *)

Lemma digitsValueFrom_nonneg (s : string) :
  forall acc : Z, (0 <= acc)%Z -> (0 <= digitsValueFrom acc s)%Z.
Proof.
  induction s as [|c r IH]; intros acc H; [exact H|].
  cbn [digitsValueFrom]. apply IH. unfold digitValue. lia.
Qed.

Lemma parseInt_nonneg (s : string) : 0 <= parseInt s.
Proof.
  unfold parseInt. change 0 with (inject_Z 0). rewrite <- Zle_Qle.
  apply digitsValueFrom_nonneg. lia.
Qed.

Lemma parseFloat_magnitude_nonneg (ip fp : string) :
  0 <= inject_Z (digitsValueFrom 0 ip)
       + inject_Z (digitsValueFrom 0 fp) / inject_Z (10 ^ Z.of_nat (String.length fp)).
Proof.
  pose proof (digitsValueFrom_nonneg ip 0 (Z.le_refl 0)) as A.
  pose proof (digitsValueFrom_nonneg fp 0 (Z.le_refl 0)) as B.
  assert (0 < 10 ^ Z.of_nat (String.length fp))%Z as P by (apply Z.pow_pos_nonneg; lia).
  rewrite Zle_Qle in A, B. rewrite Zlt_Qlt in P.
  change (inject_Z 0) with 0 in A, B, P.
  assert (0 <= inject_Z (digitsValueFrom 0 fp)
               / inject_Z (10 ^ Z.of_nat (String.length fp))) as C.
  { apply Qle_shift_div_l; [exact P|]. rewrite Qmult_0_l. exact B. }
  lra.
Qed.

Lemma parseFloat_nonneg (s : string) : startsWith "-" s = false -> 0 <= parseFloat s.
Proof.
  intro H. unfold parseFloat. rewrite H.
  destruct (spanDigits s) as [ip rest]. apply parseFloat_magnitude_nonneg.
Qed.

Lemma parseFloat_nonpos (s : string) : startsWith "-" s = true -> parseFloat s <= 0.
Proof.
  intro H. unfold parseFloat. rewrite H.
  destruct (spanDigits (slice1 s)) as [ip rest].
  pose proof (parseFloat_magnitude_nonneg ip
                match fst (optFraction rest) with Some fs => fs | None => EmptyString end) as P.
  lra.
Qed.

Lemma Math_round_sign_nonneg (x : Number) : 0 <= x -> 0 <= Math_round x.
Proof.
  intro H. unfold Math_round. change 0 with (inject_Z (Qfloor 0)).
  rewrite <- Zle_Qle. apply Qfloor_resp_le. lra.
Qed.

Lemma Math_round_sign_nonpos (x : Number) : x <= 0 -> Math_round x <= 0.
Proof.
  intro H. unfold Math_round.
  pose proof (Qfloor_le (x + (1 # 2))) as F.
  assert (inject_Z (Qfloor (x + (1 # 2))) < inject_Z 1) as L
    by (change (inject_Z 1) with 1; lra).
  rewrite <- Zlt_Qlt in L. change 0 with (inject_Z 0). rewrite <- Zle_Qle. lia.
Qed.

Lemma spanDigits_head (s ds rest : string) :
  spanDigits s = (ds, rest) -> ds <> EmptyString -> headIsDigit ds.
Proof.
  destruct s as [|c r]; cbn [spanDigits].
  - intros H N. injection H as <- _. contradiction.
  - destruct (isDigit c) eqn:Hc.
    + destruct (spanDigits r) as [ds' rest']. intros H _. injection H as <- _.
      exists c, ds'. split; [reflexivity | exact Hc].
    + intros H N. injection H as <- _. contradiction.
Qed.

Lemma digits1_head (s ds rest : string) :
  digits1 s = Some (ds, rest) -> headIsDigit ds.
Proof.
  unfold digits1. destruct (spanDigits s) as [d r] eqn:E.
  destruct d as [|c d']; [discriminate|].
  intro H. injection H as <- <-.
  apply (spanDigits_head s _ _ E). discriminate.
Qed.

Lemma optSecondsThen_head (x : ascii) (s v rest : string) :
  optSecondsThen x s = (Some v, rest) -> headIsDigit v.
Proof.
  unfold optSecondsThen. destruct (digits1 s) as [[ds r]|] eqn:E; [|discriminate].
  destruct (optFraction r) as [frac r1]. destruct (expect x r1); [|discriminate].
  intro H. injection H as <- _. apply headIsDigit_app. exact (digits1_head _ _ _ E).
Qed.

Lemma matchISO8601_seconds (input : string) (m : ISOMatch) :
  matchISO8601 input = Some m -> startsWith "-" (orZero (iso_seconds m)) = false.
Proof.
  unfold matchISO8601. destruct (expect "P" input) as [s0|]; [|discriminate].
  destruct (optDigitsThen "Y" s0) as [y s1].
  destruct (optDigitsThen "M" s1) as [mo s2].
  destruct (optDigitsThen "D" s2) as [d s3].
  destruct (expect "T" s3) as [t0|].
  - destruct (optDigitsThen "H" t0) as [h t1].
    destruct (optDigitsThen "M" t1) as [mi t2].
    destruct (optSecondsThen "S" t2) as [sec t3] eqn:Es.
    destruct (isEmpty t3); [|discriminate].
    intro H. injection H as <-. cbn [iso_seconds].
    destruct sec as [v|]; [|reflexivity].
    cbn [orZero]. apply headIsDigit_not_minus. exact (optSecondsThen_head _ _ _ _ Es).
  - destruct (isEmpty s3); [|discriminate].
    intro H. injection H as <-. reflexivity.
Qed.

Lemma storage_le_refl (a : IntervalStorage) : storage_le a a.
Proof. repeat split; apply Qle_refl. Qed.

Lemma storage_le_trans (a b c : IntervalStorage) :
  storage_le a b -> storage_le b c -> storage_le a c.
Proof.
  intros (A & B & C) (A' & B' & C'). repeat split; eapply Qle_trans; eassumption.
Qed.

Lemma addMonths_le (n : Number) (st : IntervalStorage) :
  0 <= n -> storage_le st (exec (addMonths n) st).
Proof. intro H. unfold storage_le. cbn. repeat split; lra. Qed.

Lemma addDays_le (n : Number) (st : IntervalStorage) :
  0 <= n -> storage_le st (exec (addDays n) st).
Proof. intro H. unfold storage_le. cbn. repeat split; lra. Qed.

Lemma unit_constants_pos :
  0 < MICROSECONDS_PER_HOUR /\ 0 < MICROSECONDS_PER_MINUTE
  /\ 0 < MICROSECONDS_PER_SECOND /\ 0 < MONTHS_PER_YEAR.
Proof. repeat split. Qed.

Lemma addTime_le (h m s : Number) (st : IntervalStorage) :
  0 <= h -> 0 <= m -> 0 <= s -> storage_le st (exec (addTime h m s) st).
Proof.
  intros Hh Hm Hs. destruct unit_constants_pos as (PH & PM & PS & _).
  pose proof (Qmult_le_0_compat _ _ Hh (Qlt_le_weak _ _ PH)) as A.
  pose proof (Qmult_le_0_compat _ _ Hm (Qlt_le_weak _ _ PM)) as B.
  pose proof (Math_round_sign_nonneg _ (Qmult_le_0_compat _ _ Hs (Qlt_le_weak _ _ PS))) as C.
  unfold storage_le, addTime, exec, modify. cbn [snd months days microseconds].
  repeat split; lra.
Qed.

(** X12.  The ISO-8601 recognizer only adds: when it accepts, no field
    of the storage is below what it was, so an ISO-8601 duration never
    constructs a negative field; when it declines, the storage is
    untouched. *)
Theorem iso8601_only_adds (input : string) (st : IntervalStorage) :
  (fst (tryParseISO8601 input st) = true ->
   storage_le st (exec (tryParseISO8601 input) st))
  /\ (fst (tryParseISO8601 input st) = false -> exec (tryParseISO8601 input) st = st)
  /\ (forall m : ISOMatch, matchISO8601 input = Some m ->
        storage_le st (exec (parse input) st)).
Proof.
  assert (forall s m, matchISO8601 input = Some m ->
                      storage_le s (exec (tryParseISO8601 input) s)) as K.
  { intros s m Hm. unfold tryParseISO8601. rewrite Hm.
    pose proof (matchISO8601_seconds input m Hm) as Hsec.
    destruct unit_constants_pos as (_ & _ & _ & PY).
    unfold exec, bind, ret.
    set (s1 := snd (whenSome (iso_years m)
                      (fun years => addMonths (parseInt years * MONTHS_PER_YEAR)) s)).
    assert (storage_le s s1) as L1.
    { unfold s1. destruct (iso_years m) as [y|]; cbn [whenSome].
      - apply addMonths_le. apply Qmult_le_0_compat;
          [apply parseInt_nonneg | apply Qlt_le_weak; exact PY].
      - apply storage_le_refl. }
    destruct (whenSome (iso_years m)
                (fun years => addMonths (parseInt years * MONTHS_PER_YEAR)) s) as [u1 s1'].
    cbn [snd] in s1. subst s1.
    set (s2 := snd (whenSome (iso_months m) (fun months => addMonths (parseInt months)) s1')).
    assert (storage_le s1' s2) as L2.
    { unfold s2. destruct (iso_months m) as [y|]; cbn [whenSome].
      - apply addMonths_le, parseInt_nonneg.
      - apply storage_le_refl. }
    destruct (whenSome (iso_months m) (fun months => addMonths (parseInt months)) s1')
      as [u2 s2'].
    cbn [snd] in s2. subst s2.
    set (s3 := snd (whenSome (iso_days m) (fun days => addDays (parseInt days)) s2')).
    assert (storage_le s2' s3) as L3.
    { unfold s3. destruct (iso_days m) as [y|]; cbn [whenSome].
      - apply addDays_le, parseInt_nonneg.
      - apply storage_le_refl. }
    destruct (whenSome (iso_days m) (fun days => addDays (parseInt days)) s2') as [u3 s3'].
    cbn [snd] in s3. subst s3.
    match goal with
    | |- storage_le s (snd (let (_, st') := ?t s3' in _)) =>
        assert (storage_le s3' (snd (t s3'))) as L4;
        [| destruct (t s3') as [u4 s4']; cbn [snd] in L4 |- * ]
    end.
    { destruct (isSome (iso_hours m) || isSome (iso_minutes m) || isSome (iso_seconds m)).
      - apply addTime_le; [apply parseInt_nonneg | apply parseInt_nonneg |].
        apply parseFloat_nonneg. exact Hsec.
      - apply storage_le_refl. }
    eapply storage_le_trans; [exact L1|].
    eapply storage_le_trans; [exact L2|].
    eapply storage_le_trans; [exact L3|]. exact L4. }
  split; [|split].
  - intros H. destruct (matchISO8601 input) as [m|] eqn:Hm.
    + apply (K st m eq_refl).
    + unfold tryParseISO8601 in H. rewrite Hm in H. discriminate H.
  - intros H. destruct (matchISO8601 input) as [m|] eqn:Hm.
    + rewrite (tryParseISO8601_accepts input m st Hm) in H. discriminate H.
    + unfold tryParseISO8601, exec. rewrite Hm. reflexivity.
  - intros m Hm. unfold exec at 1. rewrite (parse_iso input m st Hm).
    cbn [snd]. apply (K st m Hm).
Qed.

Lemma iso8601_only_adds_witness :
  fst (tryParseISO8601 "PT36H" (mkStorage 1 2 3)) = true
  /\ storage_le (mkStorage 1 2 3) (exec (tryParseISO8601 "PT36H") (mkStorage 1 2 3))
  /\ fst (tryParseISO8601 "P-1D" (mkStorage 1 2 3)) = false
  /\ exec (tryParseISO8601 "P-1D") (mkStorage 1 2 3) = mkStorage 1 2 3
  /\ storage_le (mkStorage 1 2 3) (exec (parse "PT36H") (mkStorage 1 2 3)).
Proof.
  split; [reflexivity|].
  split; [exact (proj1 (iso8601_only_adds "PT36H" (mkStorage 1 2 3)) eq_refl)|].
  split; [reflexivity|].
  split; [exact (proj1 (proj2 (iso8601_only_adds "P-1D" (mkStorage 1 2 3))) eq_refl)|].
  exact (proj2 (proj2 (iso8601_only_adds "PT36H" (mkStorage 1 2 3)))
           (mkISOMatch None None None (Some "36") None None) eq_refl).
Defined.

Lemma matchTimeFormat_fields (input : string) (m : TimeMatch) :
  matchTimeFormat input = Some m ->
  tm_negative m = startsWith "-" input /\ headIsDigit (tm_seconds m).
Proof.
  unfold matchTimeFormat.
  destruct (digits1 (if startsWith "-" input then slice1 input else input))
    as [[h s1]|]; [|discriminate].
  destruct (expect ":" s1) as [s2|]; [|discriminate].
  destruct (digits1 s2) as [[mi s3]|]; [|discriminate].
  destruct (expect ":" s3) as [s4|]; [|discriminate].
  destruct (digits1 s4) as [[sec s5]|] eqn:E; [|discriminate].
  destruct (optFraction s5) as [frac s6].
  destruct (isEmpty s6); [|discriminate].
  intro H. injection H as <-. cbn [tm_negative tm_seconds].
  split; [reflexivity | exact (digits1_head _ _ _ E)].
Qed.

(** X13.  The clock recognizer only touches the microseconds, and the
    sign of the whole reading is that of the leading minus: an accepted
    text without it never lowers the microseconds, one with it never
    raises them.  A declined text leaves the storage untouched. *)
Theorem clock_time_sign (input : string) (st : IntervalStorage) :
  let st' := exec (tryParseTimeFormat input) st in
  months st' = months st
  /\ days st' = days st
  /\ (fst (tryParseTimeFormat input st) = true ->
      if startsWith "-" input
      then microseconds st' <= microseconds st
      else microseconds st <= microseconds st')
  /\ (fst (tryParseTimeFormat input st) = false -> st' = st).
Proof.
  cbv zeta. unfold tryParseTimeFormat.
  destruct (matchTimeFormat input) as [m|] eqn:Hm;
    [|repeat split; intro H; discriminate H].
  destruct (matchTimeFormat_fields input m Hm) as [Hn Hd].
  unfold exec, bind, ret, addTime, modify. cbn [fst snd months days microseconds].
  split; [reflexivity|]. split; [reflexivity|].
  split; [|intro H; discriminate H].
  intros _. rewrite <- Hn.
  destruct unit_constants_pos as (PH & PM & PS & _).
  pose proof (parseInt_nonneg (tm_hours m)) as Ah.
  pose proof (parseInt_nonneg (tm_minutes m)) as Am.
  assert (0 <= parseFloat (tm_seconds m ++
                           match tm_microseconds m with
                           | Some us => "." ++ us
                           | None => EmptyString
                           end)) as As.
  { apply parseFloat_nonneg, headIsDigit_not_minus, headIsDigit_app. exact Hd. }
  set (h := parseInt (tm_hours m)) in *.
  set (mi := parseInt (tm_minutes m)) in *.
  set (s := parseFloat _) in *.
  pose proof (Qmult_le_0_compat _ _ Ah (Qlt_le_weak _ _ PH)) as Bh.
  pose proof (Qmult_le_0_compat _ _ Am (Qlt_le_weak _ _ PM)) as Bm.
  pose proof (Qmult_le_0_compat _ _ As (Qlt_le_weak _ _ PS)) as Bs.
  destruct (tm_negative m).
  - assert (h * inject_Z (-1) * MICROSECONDS_PER_HOUR == - (h * MICROSECONDS_PER_HOUR)) as ->
      by (change (inject_Z (-1)) with (- (1)); ring).
    assert (mi * inject_Z (-1) * MICROSECONDS_PER_MINUTE == - (mi * MICROSECONDS_PER_MINUTE)) as ->
      by (change (inject_Z (-1)) with (- (1)); ring).
    assert (Math_round (s * inject_Z (-1) * MICROSECONDS_PER_SECOND) <= 0) as C.
    { apply Math_round_sign_nonpos.
      assert (s * inject_Z (-1) * MICROSECONDS_PER_SECOND == - (s * MICROSECONDS_PER_SECOND)) as ->
        by (change (inject_Z (-1)) with (- (1)); ring).
      lra. }
    lra.
  - assert (h * 1 * MICROSECONDS_PER_HOUR == h * MICROSECONDS_PER_HOUR) as -> by ring.
    assert (mi * 1 * MICROSECONDS_PER_MINUTE == mi * MICROSECONDS_PER_MINUTE) as -> by ring.
    assert (0 <= Math_round (s * 1 * MICROSECONDS_PER_SECOND)) as C.
    { apply Math_round_sign_nonneg.
      assert (s * 1 * MICROSECONDS_PER_SECOND == s * MICROSECONDS_PER_SECOND) as -> by ring.
      exact Bs. }
    lra.
Qed.

Lemma clock_time_sign_witness :
  fst (tryParseTimeFormat "-01:02:03.5" (mkStorage 1 2 3)) = true
  /\ microseconds (exec (tryParseTimeFormat "-01:02:03.5") (mkStorage 1 2 3))
     <= microseconds (mkStorage 1 2 3)
  /\ fst (tryParseTimeFormat "1:2" (mkStorage 1 2 3)) = false
  /\ exec (tryParseTimeFormat "1:2") (mkStorage 1 2 3) = mkStorage 1 2 3.
Proof.
  pose proof (clock_time_sign "-01:02:03.5" (mkStorage 1 2 3)) as H.
  pose proof (clock_time_sign "1:2" (mkStorage 1 2 3)) as H'.
  cbv zeta in H, H'. destruct H as (_ & _ & Hs & _). destruct H' as (_ & _ & _ & Hd).
  split; [reflexivity|]. split; [exact (Hs eq_refl)|].
  split; [reflexivity|]. exact (Hd eq_refl).
Defined.

(** *** Sign tokens of the verbose grammar *)

Lemma letter_not_digit (c : ascii) : isLetter c = true -> isDigit c = false.
Proof.
  unfold isLetter, isUpper, isLower, isDigit.
  set (n := nat_of_ascii c). intro H.
  apply orb_true_iff in H.
  apply andb_false_iff.
  destruct H as [H | H]; apply andb_true_iff in H; destruct H as [H1 H2];
    apply Nat.leb_le in H1; apply Nat.leb_le in H2;
    right; apply Nat.leb_gt; lia.
Qed.

Lemma unitText_cases (part : string) :
  isUnitText part = true ->
  handleNegativeSign part = false /\ isNumberText part = false.
Proof.
  unfold isUnitText. destruct part as [|c r]; [discriminate|].
  cbn [isEmpty negb andb forallb]. intro H.
  apply andb_true_iff in H. destruct H as [Hc _].
  pose proof (letter_not_digit c Hc) as Hd.
  assert (c <> "-"%char) as Hm by (intro E; subst c; discriminate Hc).
  assert (startsWith "-" (String c r) = false) as Hs.
  { unfold startsWith.
    change (String.prefix "-" (String c r))
      with (if ascii_dec "-" c then String.prefix EmptyString r else false).
    destruct (ascii_dec "-" c) as [E | _]; [congruence | reflexivity]. }
  split.
  - unfold handleNegativeSign. cbn [String.eqb].
    destruct (Ascii.eqb_spec c "-"); [contradiction | reflexivity].
  - unfold isNumberText. rewrite Hs. unfold digits1. cbn [spanDigits]. rewrite Hd.
    reflexivity.
Qed.

Lemma numberText_not_sign (part : string) :
  isNumberText part = true -> handleNegativeSign part = false.
Proof.
  intro H. unfold handleNegativeSign.
  destruct (String.eqb_spec part "-") as [-> | _]; [discriminate H | reflexivity].
Qed.

Lemma verboseStep_number (locals : Number * bool) (part : string) (st : IntervalStorage) :
  isNumberText part = true ->
  verboseStep locals part st = ((parseFloat part, startsWith "-" part), st).
Proof.
  intro H. unfold verboseStep. destruct locals as [v n].
  rewrite (numberText_not_sign part H). unfold tryParseNumber. rewrite H. reflexivity.
Qed.

Lemma verboseStep_unit (v : Number) (n : bool) (part c : string) (st : IntervalStorage) :
  isUnitText part = true -> getCanonicalUnit (dropFinalS part) = Some c ->
  verboseStep (v, n) part st
  = ((0, false),
     exec (addValueWithUnit c (v * (if n then inject_Z (-1) else 1))) st).
Proof.
  intros Hu Hc. destruct (unitText_cases part Hu) as [Hs Hn].
  unfold verboseStep. rewrite Hs. unfold tryParseNumber. rewrite Hn. cbn [negb].
  unfold tryParseUnit. rewrite Hu, Hc. cbn [negb]. unfold bind, ret, exec.
  cbv beta zeta.
  match goal with
  | |- context [addValueWithUnit c ?x st] =>
      change x with (v * (if n then inject_Z (-1) else 1));
      destruct (addValueWithUnit c (v * (if n then inject_Z (-1) else 1)) st) as [u st']
  end.
  reflexivity.
Qed.

Lemma addValueWithUnit_comp (c : string) (x y : Number) (st : IntervalStorage) :
  x == y ->
  storage_eq (exec (addValueWithUnit c x) st) (exec (addValueWithUnit c y) st).
Proof.
  intro H. unfold addValueWithUnit.
  repeat match goal with
         | |- context [String.eqb c ?u] => destruct (String.eqb c u)
         end;
    unfold exec, addMonths, addDays, addTime, addMicroseconds, modify, ret, storage_eq;
    cbn [snd months days microseconds];
    try rewrite (Math_round_comp (x * MICROSECONDS_PER_SECOND) (y * MICROSECONDS_PER_SECOND))
      by (rewrite H; reflexivity);
    try rewrite (Math_round_comp (x * MICROSECONDS_PER_MILLISECOND)
                   (y * MICROSECONDS_PER_MILLISECOND)) by (rewrite H; reflexivity);
    try rewrite (Math_round_comp x y H);
    try rewrite H; repeat split; reflexivity.
Qed.

(** X14.  Where a minus sign acts in the verbose grammar.  A number
    followed by a unit accumulates the number's absolute value, whether
    the minus is written on the number or as a token before it: the
    value read is already signed and is multiplied by the sign once
    more.  A lone minus between the number and the unit is the one
    placement that changes the sign of what is accumulated. *)
Theorem verbose_minus_placement (num unitText c : string) (st : IntervalStorage) :
  isNumberText num = true ->
  isUnitText unitText = true ->
  getCanonicalUnit (dropFinalS unitText) = Some c ->
  let v := parseFloat num in
  storage_eq (exec (forOf verboseStep (0, false) [num; unitText]) st)
             (exec (addValueWithUnit c (Math_abs v)) st)
  /\ storage_eq (exec (forOf verboseStep (0, false) ["-"; num; unitText]) st)
                (exec (addValueWithUnit c (Math_abs v)) st)
  /\ storage_eq (exec (forOf verboseStep (0, false) [num; "-"; unitText]) st)
                (exec (addValueWithUnit c (- v)) st).
Proof.
  intros Hn Hu Hc v.
  assert (v * (if startsWith "-" num then inject_Z (-1) else 1) == Math_abs v) as Habs.
  { unfold Math_abs, v. destruct (startsWith "-" num) eqn:E.
    - rewrite (Qabs_neg _ (parseFloat_nonpos num E)).
      change (inject_Z (-1)) with (- (1)). ring.
    - rewrite (Qabs_pos _ (parseFloat_nonneg num E)). ring. }
  assert (forall l, exec (forOf verboseStep l [num; unitText]) st
                    = exec (addValueWithUnit c
                              (v * (if startsWith "-" num then inject_Z (-1) else 1))) st) as One.
  { intro l. unfold exec. cbn [forOf]. unfold bind at 1.
    rewrite (verboseStep_number l num st Hn). unfold bind at 1.
    rewrite (verboseStep_unit _ _ unitText c st Hu Hc). reflexivity. }
  split; [|split].
  - rewrite One. apply addValueWithUnit_comp. exact Habs.
  - assert (exec (forOf verboseStep (0, false) ["-"; num; unitText]) st
            = exec (forOf verboseStep (0, true) [num; unitText]) st) as -> by reflexivity.
    rewrite One. apply addValueWithUnit_comp. exact Habs.
  - unfold exec at 1. cbn [forOf]. unfold bind at 1.
    rewrite (verboseStep_number (0, false) num st Hn). unfold bind at 1.
    change (verboseStep (parseFloat num, startsWith "-" num) "-" st)
      with ((parseFloat num, true), st).
    unfold bind at 1. rewrite (verboseStep_unit _ _ unitText c st Hu Hc).
    cbn [snd]. apply addValueWithUnit_comp. fold v.
    change (inject_Z (-1)) with (- (1)). ring.
Qed.

Lemma verbose_minus_placement_witness :
  isNumberText "-30" = true
  /\ isUnitText "days" = true
  /\ getCanonicalUnit (dropFinalS "days") = Some "day"
  /\ storage_eq (exec (forOf verboseStep (0, false) ["-30"; "days"]) zeroStorage)
                (exec (addValueWithUnit "day" (Math_abs (parseFloat "-30"))) zeroStorage)
  /\ storage_eq (exec (forOf verboseStep (0, false) ["-30"; "-"; "days"]) zeroStorage)
                (exec (addValueWithUnit "day" (- parseFloat "-30")) zeroStorage).
Proof.
  pose proof (verbose_minus_placement "-30" "days" "day" zeroStorage
                eq_refl eq_refl eq_refl) as H.
  cbv zeta in H. destruct H as (H1 & _ & H3).
  split; [reflexivity|]. split; [reflexivity|]. split; [reflexivity|].
  split; [exact H1 | exact H3].
Defined.

(** ** Formatter on a snapshot of whole numbers *)

Lemma Qeq_bool_Z (a b : Z) : Qeq_bool (inject_Z a) (inject_Z b) = (a =? b)%Z.
Proof.
  destruct (Z.eqb_spec a b) as [-> | N].
  - apply Qeq_bool_iff. reflexivity.
  - destruct (Qeq_bool (inject_Z a) (inject_Z b)) eqn:E; [|reflexivity].
    apply Qeq_bool_iff in E. apply (proj1 (inject_Z_injective a b)) in E. contradiction.
Qed.

Lemma lt_Z (a b : Z) : lt (inject_Z a) (inject_Z b) = (a <? b)%Z.
Proof.
  destruct (Z.ltb_spec a b) as [L | G].
  - apply lt_true. rewrite <- Zlt_Qlt. exact L.
  - apply lt_false. rewrite <- Zle_Qle. exact G.
Qed.

Lemma lt_comp (a a' b b' : Number) : a == a' -> b == b' -> lt a b = lt a' b'.
Proof. intros Ha Hb. unfold lt. rewrite (Qle_bool_comp b b' a a' Hb Ha). reflexivity. Qed.

Lemma Math_sign_Z (x : Number) (m : Z) :
  x == inject_Z m -> Math_sign x = inject_Z (Z.sgn m).
Proof.
  intro H. destruct (Z.lt_trichotomy m 0) as [L | [E | G]].
  - rewrite Math_sign_neg.
    + destruct m; try lia. reflexivity.
    + rewrite H. change 0 with (inject_Z 0). rewrite <- Zlt_Qlt. exact L.
  - subst m. rewrite (Math_sign_zero x H). reflexivity.
  - rewrite Math_sign_pos.
    + destruct m; try lia. reflexivity.
    + rewrite H. change 0 with (inject_Z 0). rewrite <- Zlt_Qlt. lia.
Qed.

Lemma Math_abs_Z (x : Number) (m : Z) :
  x == inject_Z m -> Math_abs x == inject_Z (Z.abs m).
Proof. intro H. unfold Math_abs. rewrite H. reflexivity. Qed.

Lemma appendYearsAndMonths_Z (parts : list string) (x : Number) (m : Z) :
  x == inject_Z m ->
  appendYearsAndMonths parts x = Some (parts ++ yearsMonthsText m)%list.
Proof.
  intro H. unfold appendYearsAndMonths, yearsMonthsText.
  pose proof (Math_abs_Z x m H) as Ha.
  assert (MONTHS_PER_YEAR == inject_Z 12) as E12 by reflexivity.
  rewrite (Math_floor_Z _ _ _ _ Ha E12).
  pose proof (rem_Z _ _ _ _ Ha E12 (Z.abs_nonneg m) eq_refl) as Hr.
  set (y := (Z.abs m / 12)%Z). set (r := (Z.abs m mod 12)%Z) in *.
  rewrite (Math_sign_Z x m H).
  unfold gt, sneq.
  change 0 with (inject_Z 0). change 1 with (inject_Z 1).
  rewrite lt_Z, Qeq_bool_Z.
  rewrite (lt_comp (inject_Z 0) (inject_Z 0) _ (inject_Z r) (Qeq_refl _) Hr), lt_Z.
  rewrite (Qeq_bool_comp _ (inject_Z r) (inject_Z 1) (inject_Z 1) Hr (Qeq_refl _)).
  rewrite Qeq_bool_Z.
  rewrite (numberToString_inject (inject_Z (Z.sgn m) * inject_Z y) (Z.sgn m * y))
    by (rewrite inject_Z_mult; reflexivity).
  rewrite (numberToString_inject (inject_Z (Z.sgn m) * rem (Math_abs x) MONTHS_PER_YEAR)
             (Z.sgn m * r)) by (rewrite Hr, inject_Z_mult; reflexivity).
  unfold push.
  destruct (0 <? y)%Z, (0 <? r)%Z; cbn [obind];
    rewrite <- ?app_assoc, ?app_nil_r; reflexivity.
Qed.

Lemma appendDays_Z (parts : list string) (x : Number) (d : Z) :
  x == inject_Z d -> appendDays parts x = Some (parts ++ daysText d)%list.
Proof.
  intro H. unfold appendDays, daysText, sneq.
  rewrite (Qeq_bool_comp x (inject_Z d) 0 (inject_Z 0) H (Qeq_refl _)), Qeq_bool_Z.
  rewrite (Qeq_bool_comp _ (inject_Z (Z.abs d)) 1 (inject_Z 1) (Math_abs_Z x d H) (Qeq_refl _)).
  rewrite Qeq_bool_Z, (numberToString_inject x d H).
  destruct (d =? 0)%Z; cbn [negb obind]; [rewrite app_nil_r|]; reflexivity.
Qed.

Lemma appendTime_Z (parts : list string) (x : Number) (u : Z) (force : bool) :
  x == inject_Z u -> (0 <= u)%Z ->
  appendTime parts x force
  = Some (parts ++ (if (u =? 0)%Z && negb force then [] else [timeTextZ u]))%list.
Proof.
  intros H Hu. unfold appendTime, seq.
  rewrite (Qeq_bool_comp x (inject_Z u) 0 (inject_Z 0) H (Qeq_refl _)), Qeq_bool_Z.
  destruct ((u =? 0)%Z && negb force); [rewrite app_nil_r; reflexivity|].
  rewrite (timeText_Z x u H Hu). reflexivity.
Qed.

Lemma isEmpty_app (s t : string) : isEmpty (s ++ t) = isEmpty s && isEmpty t.
Proof. destruct s; reflexivity. Qed.

Lemma join_nonempty (sep p : string) (ps : list string) :
  isEmpty p = false -> isEmpty (join sep (p :: ps)) = false.
Proof.
  intro H. destruct ps as [|q qs]; [exact H|].
  change (join sep (p :: q :: qs)) with (p ++ sep ++ join sep (q :: qs)).
  rewrite isEmpty_app, H. reflexivity.
Qed.

Lemma clockText_nonempty (u : Z) : isEmpty (clockText u) = false.
Proof.
  destruct (headIsDigit_app _ (":" ++ padStart 2 "0"
              (natToString ((u mod 3600000000) / 60000000)) ++ ":" ++
              padStart 2 "0" (natToString (((u mod 3600000000) mod 60000000) / 1000000)))
              (padStart_head 2 _ (natToString_head (u / 3600000000))))
    as (c & r & E & _).
  unfold clockText. rewrite E. reflexivity.
Qed.

Lemma timeTextZ_nonempty (u : Z) : isEmpty (timeTextZ u) = false.
Proof.
  unfold timeTextZ. destruct (u mod 1000000 =? 0)%Z.
  - apply clockText_nonempty.
  - rewrite isEmpty_app, clockText_nonempty. reflexivity.
Qed.

Lemma intToString_nonempty (n : Z) : isEmpty (intToString n) = false.
Proof.
  unfold intToString. destruct (n <? 0)%Z; [reflexivity|].
  destruct (natToString_head n) as (c & r & E & _). rewrite E. reflexivity.
Qed.

Lemma snapshotParts_nonempty (m d u : Z) :
  exists p ps, snapshotParts m d u = p :: ps /\ isEmpty p = false.
Proof.
  unfold snapshotParts, yearsMonthsText, daysText.
  assert (forall n w, isEmpty (intToString n ++ w) = false) as K
    by (intros n w; rewrite isEmpty_app, intToString_nonempty; reflexivity).
  destruct (0 <? Z.abs m / 12)%Z eqn:Ey.
  { eexists; eexists; split; [reflexivity | apply K]. }
  destruct (0 <? Z.abs m mod 12)%Z eqn:Er.
  { eexists; eexists; split; [reflexivity | apply K]. }
  destruct (Z.eqb_spec d 0) as [Ed | Nd].
  - assert (m = 0)%Z as Em.
    { apply Z.ltb_ge in Ey, Er.
      pose proof (Z.div_mod (Z.abs m) 12 ltac:(lia)) as DM.
      pose proof (Z.mod_pos_bound (Z.abs m) 12 ltac:(lia)) as B.
      assert (0 <= Z.abs m / 12)%Z by (apply Z.div_pos; lia). lia. }
    subst m d. cbn [Z.eqb andb negb]. rewrite andb_false_r.
    eexists; eexists; split; [reflexivity | apply timeTextZ_nonempty].
  - eexists; eexists; split; [reflexivity | apply K].
Qed.

Lemma toPostgresString_Z (this : Interval) (m d u : Z) :
  storage_eq (getStorage this) (mkStorage (inject_Z m) (inject_Z d) (inject_Z u)) ->
  toPostgresString this = Some (join " " (snapshotParts m d u))
  /\ isEmpty (join " " (snapshotParts m d u)) = false
  /\ (0 <= u < 86400000000)%Z.
Proof.
  intros (Hm & Hd & Hu). cbn [months days microseconds] in Hm, Hd, Hu.
  destruct (getStorage_range this) as [Rlo Rhi].
  assert (0 <= u < 86400000000)%Z as Ru.
  { rewrite Hu in Rlo, Rhi. change 0 with (inject_Z 0) in Rlo.
    change MICROSECONDS_PER_DAY with (inject_Z 86400000000) in Rhi.
    rewrite <- Zle_Qle in Rlo. rewrite <- Zlt_Qlt in Rhi. lia. }
  assert (isEmpty (join " " (snapshotParts m d u)) = false) as Hne.
  { destruct (snapshotParts_nonempty m d u) as (p & ps & -> & Hp).
    apply join_nonempty. exact Hp. }
  split; [|split; [exact Hne | exact Ru]].
  unfold toPostgresString. fold (getStorage this).
  rewrite (appendYearsAndMonths_Z [] _ m Hm). cbn [obind].
  rewrite (appendDays_Z _ _ d Hd). cbn [obind].
  rewrite (appendTime_Z _ _ u _ Hu (proj1 Ru)). cbn [obind].
  unfold seq.
  rewrite (Qeq_bool_comp _ (inject_Z m) 0 (inject_Z 0) Hm (Qeq_refl _)), Qeq_bool_Z.
  rewrite (Qeq_bool_comp _ (inject_Z d) 0 (inject_Z 0) Hd (Qeq_refl _)), Qeq_bool_Z.
  change (([] ++ yearsMonthsText m) ++ daysText d)%list
    with (yearsMonthsText m ++ daysText d)%list.
  rewrite <- app_assoc. fold (snapshotParts m d u). rewrite Hne. reflexivity.
Qed.



(** ** Reading back a clock text *)

Lemma append_nil_r (s : string) : s ++ EmptyString = s.
Proof. induction s as [|c s IH]; [reflexivity | cbn [append]; rewrite IH; reflexivity]. Qed.

Lemma rev_snoc (s : string) (c : ascii) : rev (s ++ String c EmptyString) = String c (rev s).
Proof.
  induction s as [|d s IH]; [reflexivity|].
  cbn [append rev]. rewrite IH. reflexivity.
Qed.

Lemma rev_involutive (s : string) : rev (rev s) = s.
Proof.
  induction s as [|c s IH]; [reflexivity|].
  cbn [rev]. rewrite rev_snoc, IH. reflexivity.
Qed.




Lemma forallb_impl (p q : ascii -> bool) (s : string) :
  (forall c, p c = true -> q c = true) -> forallb p s = true -> forallb q s = true.
Proof.
  intros I. induction s as [|c s IH]; [reflexivity|].
  cbn [forallb]. intro H. apply andb_true_iff in H. destruct H as [Hc Hs].
  rewrite (I c Hc), (IH Hs). reflexivity.
Qed.

Lemma digit_not_whitespace (c : ascii) : isDigit c = true -> negb (isWhitespace c) = true.
Proof.
  unfold isDigit, isWhitespace. set (n := nat_of_ascii c). intro H.
  apply andb_true_iff in H. destruct H as [H1 H2].
  apply Nat.leb_le in H1. apply Nat.leb_le in H2.
  apply negb_true_iff, orb_false_iff. split.
  - apply andb_false_iff. right. apply Nat.leb_gt. lia.
  - apply Nat.eqb_neq. lia.
Qed.

Lemma spanDigits_app (ds rest : string) (c : ascii) :
  forallb isDigit ds = true -> isDigit c = false ->
  spanDigits (ds ++ String c rest) = (ds, String c rest).
Proof.
  intros Hd Hc. induction ds as [|d ds IH].
  - cbn [append spanDigits]. rewrite Hc. reflexivity.
  - cbn [forallb] in Hd. apply andb_true_iff in Hd. destruct Hd as [H1 H2].
    cbn [append spanDigits]. rewrite H1, (IH H2). reflexivity.
Qed.

Lemma digits1_app (ds rest : string) (c : ascii) :
  headIsDigit ds -> forallb isDigit ds = true -> isDigit c = false ->
  digits1 (ds ++ String c rest) = Some (ds, String c rest).
Proof.
  intros (d & r & -> & _) Hd Hc. unfold digits1.
  rewrite (spanDigits_app _ rest c Hd Hc). reflexivity.
Qed.

Lemma digits1_all (ds : string) :
  headIsDigit ds -> forallb isDigit ds = true -> digits1 ds = Some (ds, EmptyString).
Proof.
  intros (d & r & -> & _) Hd. unfold digits1. rewrite (spanDigits_all _ Hd). reflexivity.
Qed.


Lemma digitsValueFrom_natToString (n : Z) :
  (0 <= n)%Z -> digitsValueFrom 0 (natToString n) = n.
Proof.
  intro H. pose proof (parseInt_natToString n H) as P. unfold parseInt in P.
  rewrite spanDigits_all in P by apply natToString_digits. cbn [fst] in P.
  apply (proj1 (inject_Z_injective _ _)). rewrite P. reflexivity.
Qed.



Lemma headIsDigit_not_minus_P (s : string) : headIsDigit s -> startsWith "-P" s = false.
Proof.
  intros (c & r & -> & Hc). unfold startsWith.
  change (String.prefix "-P" (String c r))
    with (if ascii_dec "-" c then String.prefix "P" r else false).
  destruct (ascii_dec "-" c) as [E | _]; [|reflexivity].
  subst c. discriminate Hc.
Qed.

Lemma headIsDigit_not_iso (s : string) : headIsDigit s -> matchISO8601 s = None.
Proof.
  intros (c & r & -> & Hc). unfold matchISO8601, expect.
  destruct (Ascii.eqb_spec "P" c) as [E | _]; [|reflexivity].
  subst c. discriminate Hc.
Qed.


Lemma parseFloat_clock (ss : string) (frac : option string) :
  headIsDigit ss -> forallb isDigit ss = true ->
  (forall f, frac = Some f -> headIsDigit f /\ forallb isDigit f = true) ->
  parseFloat (ss ++ match frac with Some f => "." ++ f | None => EmptyString end)
  == inject_Z (digitsValueFrom 0 ss)
     + match frac with
       | Some f => inject_Z (digitsValueFrom 0 f)
                   / inject_Z (10 ^ Z.of_nat (String.length f))
       | None => 0
       end.
Proof.
  intros Hs Ds Hf. unfold parseFloat.
  rewrite (headIsDigit_not_minus _ (headIsDigit_app _ _ Hs)).
  destruct frac as [f|].
  - destruct (Hf f eq_refl) as [Hf1 Hf2].
    change (ss ++ "." ++ f) with (ss ++ String "." f).
    rewrite (spanDigits_app ss f "." Ds eq_refl).
    unfold optFraction. cbn [expect Ascii.eqb Bool.eqb].
    rewrite (digits1_all f Hf1 Hf2). cbn [fst]. reflexivity.
  - rewrite append_nil_r, (spanDigits_all ss Ds). cbn. 
    unfold Qdiv. rewrite Qmult_0_l. reflexivity.
Qed.





(** ** Reading back a text of units *)

(** A token: not empty, no white space in it. *)
Lemma splitFrom_token (tok rest cur : string) (inRun : bool) :
  forallb (fun c => negb (isWhitespace c)) tok = true ->
  splitFrom (tok ++ rest) cur inRun
  = splitFrom rest (cur ++ tok) (isEmpty tok && inRun).
Proof.
  revert cur inRun. induction tok as [|c t IH]; intros cur inRun H.
  - cbn [append isEmpty andb]. rewrite append_nil_r. reflexivity.
  - cbn [forallb] in H. apply andb_true_iff in H. destruct H as [Hc Ht].
    apply negb_true_iff in Hc.
    cbn [append splitFrom isEmpty andb]. rewrite Hc, (IH _ _ Ht).
    rewrite append_assoc. cbn [append]. rewrite andb_false_r. reflexivity.
Qed.

Lemma split_join (toks : list string) (inRun : bool) :
  toks <> [] ->
  Forall (fun t => isEmpty t = false
                   /\ forallb (fun c => negb (isWhitespace c)) t = true) toks ->
  splitFrom (join " " toks) EmptyString inRun = toks.
Proof.
  intros N F. revert inRun. induction F as [|t ts [Ht Wt] F IH]; [contradiction|].
  intro inRun. destruct ts as [|t' ts'].
  - cbn [join]. rewrite <- (append_nil_r t) at 1.
    rewrite (splitFrom_token t EmptyString EmptyString inRun Wt). reflexivity.
  - change (join " " (t :: t' :: ts')) with (t ++ String " " (join " " (t' :: ts'))).
    rewrite (splitFrom_token t _ EmptyString inRun Wt), Ht.
    cbn [andb append splitFrom]. change (isWhitespace " ") with true. cbv iota.
    rewrite IH by discriminate. reflexivity.
Qed.

Lemma last_char (s : string) (p : ascii -> bool) :
  isEmpty s = false -> forallb p s = true ->
  exists t c, s = t ++ String c EmptyString /\ p c = true.
Proof.
  induction s as [|c s IH]; [discriminate|].
  intros _ H. cbn [forallb] in H. apply andb_true_iff in H. destruct H as [Hc Hs].
  destruct s as [|d s'].
  - exists EmptyString, c. split; [reflexivity | exact Hc].
  - destruct (IH eq_refl Hs) as (t & e & E & He).
    exists (String c t), e. split; [cbn [append]; rewrite <- E; reflexivity | exact He].
Qed.

Lemma trim_ends (c e : ascii) (body : string) :
  isWhitespace c = false -> isWhitespace e = false ->
  trim (String c body ++ String e EmptyString) = String c body ++ String e EmptyString.
Proof.
  intros Hc He. unfold trim, trimEnd.
  cbn [append trimStart]. rewrite Hc.
  change (String c (body ++ String e EmptyString))
    with (String c body ++ String e EmptyString).
  rewrite rev_snoc. cbn [trimStart]. rewrite He.
  rewrite <- rev_snoc. apply rev_involutive.
Qed.

Lemma isNumberText_natToString (k : Z) : isNumberText (natToString k) = true.
Proof.
  unfold isNumberText.
  rewrite (headIsDigit_not_minus _ (natToString_head k)).
  rewrite (digits1_all _ (natToString_head k) (natToString_digits k)). reflexivity.
Qed.

Lemma parseFloat_natToString (k : Z) :
  (0 <= k)%Z -> parseFloat (natToString k) == inject_Z k.
Proof.
  intro H.
  pose proof (parseFloat_clock (natToString k) None (natToString_head k)
                (natToString_digits k) ltac:(discriminate)) as P.
  rewrite append_nil_r in P. rewrite P, (digitsValueFrom_natToString k H). ring.
Qed.

Lemma matchTimeFormat_units (n rest : string) :
  headIsDigit n -> forallb isDigit n = true ->
  matchTimeFormat (n ++ String " " rest) = None.
Proof.
  intros Hn Dn. unfold matchTimeFormat.
  rewrite (headIsDigit_not_minus _ (headIsDigit_app _ _ Hn)).
  rewrite (digits1_app n rest " " Hn Dn eq_refl). reflexivity.
Qed.

(** A text that begins with digits and a space goes to the verbose
    grammar. *)
Lemma parse_units (n rest : string) (st : IntervalStorage) :
  headIsDigit n -> forallb isDigit n = true ->
  parse (n ++ String " " rest) st
  = (tt, exec (parseVerboseFormat (n ++ String " " rest)) st).
Proof.
  intros Hn Dn. rewrite parse_unfold. unfold parseBody, tryParseNegativeISO.
  rewrite (headIsDigit_not_minus_P _ (headIsDigit_app _ _ Hn)). cbn [negb].
  unfold tryParseISO8601. rewrite (headIsDigit_not_iso _ (headIsDigit_app _ _ Hn)).
  unfold tryParseTimeFormat. rewrite (matchTimeFormat_units n rest Hn Dn).
  unfold bind, ret, exec. cbv beta iota.
  destruct (parseVerboseFormat (n ++ String " " rest) st) as [[] st']. reflexivity.
Qed.

Lemma forOf_number_unit (k : Z) (w c : string) (rest : list string)
    (locals : Number * bool) (st : IntervalStorage) :
  isUnitText w = true -> getCanonicalUnit (dropFinalS w) = Some c ->
  forOf verboseStep locals (natToString k :: w :: rest) st
  = forOf verboseStep (0, false) rest
      (exec (addValueWithUnit c (parseFloat (natToString k) * 1)) st).
Proof.
  intros Hu Hc. cbn [forOf]. unfold bind at 1.
  rewrite (verboseStep_number locals _ st (isNumberText_natToString k)).
  unfold bind at 1.
  rewrite (headIsDigit_not_minus _ (natToString_head k)).
  rewrite (verboseStep_unit _ false w c st Hu Hc). reflexivity.
Qed.

Lemma unit_words (b : bool) :
  (isUnitText ("year" ++ plural b) = true
   /\ getCanonicalUnit (dropFinalS ("year" ++ plural b)) = Some "year")
  /\ (isUnitText ("mon" ++ plural b) = true
      /\ getCanonicalUnit (dropFinalS ("mon" ++ plural b)) = Some "month")
  /\ (isUnitText ("day" ++ plural b) = true
      /\ getCanonicalUnit (dropFinalS ("day" ++ plural b)) = Some "day").
Proof. destruct b; repeat split. Qed.

Lemma token_number (k : Z) :
  isEmpty (natToString k) = false
  /\ forallb (fun c => negb (isWhitespace c)) (natToString k) = true.
Proof.
  split.
  - destruct (natToString_head k) as (c & r & E & _). rewrite E. reflexivity.
  - apply (forallb_impl isDigit); [exact digit_not_whitespace | apply natToString_digits].
Qed.

Lemma token_word (b : bool) (w : string) :
  In w ["year"; "mon"; "day"] ->
  isEmpty (w ++ plural b) = false
  /\ forallb (fun c => negb (isWhitespace c)) (w ++ plural b) = true.
Proof.
  cbn [In]. intros [<- | [<- | [<- | []]]]; destruct b; split; reflexivity.
Qed.

Lemma join_head (toks : list string) :
  toks <> [] ->
  Forall (fun t => isEmpty t = false
                   /\ forallb (fun c => negb (isWhitespace c)) t = true) toks ->
  exists c r, join " " toks = String c r /\ isWhitespace c = false.
Proof.
  intros N F. destruct F as [|t ts [Ht Wt] F]; [contradiction|].
  destruct t as [|c t']; [discriminate|].
  cbn [forallb] in Wt. apply andb_true_iff in Wt. destruct Wt as [Wc _].
  apply negb_true_iff in Wc.
  destruct ts; [exists c, t' | eexists c, _]; (split; [reflexivity | exact Wc]).
Qed.

Lemma join_last (toks : list string) :
  toks <> [] ->
  Forall (fun t => isEmpty t = false
                   /\ forallb (fun c => negb (isWhitespace c)) t = true) toks ->
  exists t e, join " " toks = t ++ String e EmptyString /\ isWhitespace e = false.
Proof.
  intros N F. induction F as [|t ts [Ht Wt] F IH]; [contradiction|].
  destruct ts as [|t' ts'].
  - destruct (last_char t _ Ht Wt) as (i & e & E & He).
    exists i, e. split; [exact E | apply negb_true_iff; exact He].
  - destruct (IH ltac:(discriminate)) as (i & e & E & He).
    exists (t ++ " " ++ i), e. split; [|exact He].
    change (join " " (t :: t' :: ts')) with (t ++ " " ++ join " " (t' :: ts')).
    rewrite E, !append_assoc. reflexivity.
Qed.

Lemma trim_token_text (s : string) :
  (exists c r, s = String c r /\ isWhitespace c = false) ->
  (exists t e, s = t ++ String e EmptyString /\ isWhitespace e = false) ->
  trim s = s.
Proof.
  intros (c & r & Ec & Hc) (t & e & Ee & He). unfold trim, trimEnd.
  assert (trimStart s = s) as -> by (rewrite Ec; cbn [trimStart]; rewrite Hc; reflexivity).
  rewrite Ee, rev_snoc. cbn [trimStart]. rewrite He.
  rewrite <- rev_snoc. apply rev_involutive.
Qed.

(** The tokens of the text of non-negative months and days. *)
Lemma units_text_tokens (m d : Z) :
  (0 <= m)%Z -> (0 <= d)%Z -> (m <> 0 \/ d <> 0)%Z ->
  let y := (m / 12)%Z in
  let r := (m mod 12)%Z in
  let toks :=
    List.app (if (0 <? y)%Z then [natToString y; "year" ++ plural (negb (y =? 1)%Z)] else [])
      (List.app (if (0 <? r)%Z then [natToString r; "mon" ++ plural (negb (r =? 1)%Z)] else [])
         (if (d =? 0)%Z then [] else [natToString d; "day" ++ plural (negb (d =? 1)%Z)])) in
  join " " (snapshotParts m d 0) = join " " toks
  /\ (exists k w rest, toks = natToString k :: w :: rest)
  /\ Forall (fun t => isEmpty t = false
                      /\ forallb (fun c => negb (isWhitespace c)) t = true) toks
  /\ storage_eq (exec (forOf verboseStep (0, false) toks) zeroStorage)
                (mkStorage (inject_Z m) (inject_Z d) (inject_Z 0)).
Proof.
  intros Hm Hd Hnz y r toks.
  assert (0 <= y)%Z as Py by (apply Z.div_pos; lia).
  assert (0 <= r < 12)%Z as Pr by (apply Z.mod_pos_bound; lia).
  assert (m = 12 * y + r)%Z as Em by (apply Z.div_mod; lia).
  assert (snapshotParts m d 0
          = List.app (if (0 <? y)%Z
                      then [natToString y ++ " year" ++ plural (negb (y =? 1)%Z)] else [])
              (List.app (if (0 <? r)%Z
                         then [natToString r ++ " mon" ++ plural (negb (r =? 1)%Z)] else [])
                 (if (d =? 0)%Z then []
                  else [natToString d ++ " day" ++ plural (negb (d =? 1)%Z)]))) as Es.
  { unfold snapshotParts, yearsMonthsText, daysText.
    rewrite (Z.abs_eq m Hm), (Z.abs_eq d Hd). fold y r.
    assert ((m =? 0)%Z && (d =? 0)%Z = false) as ->.
    { apply andb_false_iff. destruct Hnz as [N | N]; [left | right];
        apply Z.eqb_neq; exact N. }
    cbn [Z.eqb andb negb]. rewrite app_nil_r, <- app_assoc.
    assert (forall k, (0 < m)%Z -> (0 <= k)%Z ->
                      intToString (Z.sgn m * k) = natToString k) as Sg.
    { intros k Pm Hk. rewrite (Z.sgn_pos m Pm), Z.mul_1_l. apply intToString_nonneg. lia. }
    destruct (Z.ltb_spec 0 y) as [Ly | _]; [rewrite (Sg y) by lia|];
      (destruct (Z.ltb_spec 0 r) as [Lr | _]; [rewrite (Sg r) by lia|]);
      (destruct (Z.eqb_spec d 0) as [_ | Nd];
       [|rewrite (intToString_nonneg d Hd)]); reflexivity. }
  assert (forall k b w, In w ["year"; "mon"; "day"] ->
             Forall (fun t => isEmpty t = false
                              /\ forallb (fun c => negb (isWhitespace c)) t = true)
                    [natToString k; w ++ plural b]) as Tok.
  { intros k b w Hw. repeat constructor; try apply token_number; apply token_word; exact Hw. }
  assert (inject_Z m == inject_Z y * 12 + inject_Z r) as Qm.
  { rewrite Em at 1. rewrite inject_Z_plus, inject_Z_mult. ring. }
  pose proof (parseFloat_natToString y Py) as Fy.
  pose proof (parseFloat_natToString r (proj1 Pr)) as Fr.
  pose proof (parseFloat_natToString d Hd) as Fd.
  split; [|split; [|split]].
  - rewrite Es. unfold toks.
    destruct (0 <? y)%Z, (0 <? r)%Z, (d =? 0)%Z; cbn [List.app join];
      rewrite ?append_assoc; reflexivity.
  - unfold toks.
    destruct (Z.ltb_spec 0 y); [eexists; eexists; eexists; reflexivity|].
    destruct (Z.ltb_spec 0 r); [eexists; eexists; eexists; reflexivity|].
    destruct (Z.eqb_spec d 0); [exfalso; lia|].
    eexists; eexists; eexists; reflexivity.
  - unfold toks. apply Forall_app. split; [|apply Forall_app; split].
    + destruct (0 <? y)%Z; [apply Tok; cbn [In]; tauto | constructor].
    + destruct (0 <? r)%Z; [apply Tok; cbn [In]; tauto | constructor].
    + destruct (d =? 0)%Z; [constructor | apply Tok; cbn [In]; tauto].
  - unfold toks.
    destruct (Z.ltb_spec 0 y) as [Ly | Ly];
      (destruct (Z.ltb_spec 0 r) as [Lr | Lr]);
      (destruct (Z.eqb_spec d 0) as [Ed | Nd]);
      cbn [List.app]; unfold exec;
      repeat
        (first
           [ rewrite (forOf_number_unit _ _ "year" _ _ _
                        (proj1 (proj1 (unit_words _))) (proj2 (proj1 (unit_words _))))
           | rewrite (forOf_number_unit _ _ "month" _ _ _
                        (proj1 (proj1 (proj2 (unit_words _))))
                        (proj2 (proj1 (proj2 (unit_words _)))))
           | rewrite (forOf_number_unit _ _ "day" _ _ _
                        (proj1 (proj2 (proj2 (unit_words _))))
                        (proj2 (proj2 (proj2 (unit_words _))))) ]);
      cbn [forOf ret snd];
      change (addValueWithUnit "year" ?v) with (addMonths (v * MONTHS_PER_YEAR));
      change (addValueWithUnit "month" ?v) with (addMonths v);
      change (addValueWithUnit "day" ?v) with (addDays v);
      unfold storage_eq, exec, addMonths, addDays, modify, zeroStorage;
      cbn [snd months days microseconds];
      change MONTHS_PER_YEAR with 12;
      rewrite ?Fy, ?Fr, ?Fd, Qm;
      try (assert (inject_Z y == 0) as -> by (assert (y = 0)%Z as -> by lia; reflexivity));
      try (assert (inject_Z r == 0) as -> by (assert (r = 0)%Z as -> by lia; reflexivity));
      try (rewrite Ed);
      repeat split; try ring; try reflexivity.
    all: exfalso; lia.
Qed.

(** X17.  Round trip of months and days: a value whose snapshot has
    whole, non-negative months and days, not both zero, and no time
    renders as a list of units, and the interval constructed from that
    text has the same snapshot. *)
Theorem units_text_round_trip (this : Interval) (m d : Z) :
  storage_eq (getStorage this) (mkStorage (inject_Z m) (inject_Z d) (inject_Z 0)) ->
  (0 <= m)%Z -> (0 <= d)%Z -> (m <> 0 \/ d <> 0)%Z ->
  toPostgresString this = Some (join " " (snapshotParts m d 0))
  /\ storage_eq (getStorage (ofText (join " " (snapshotParts m d 0)))) (getStorage this).
Proof.
  intros H Hm Hd Hnz.
  destruct (toPostgresString_Z this m d 0 H) as (Ht & Hne & _).
  split; [exact Ht|].
  destruct (units_text_tokens m d Hm Hd Hnz) as (Ej & (k & w & rest & Et) & F & Hs).
  cbv zeta in Ej, Et, F, Hs.
  set (toks := List.app _ _) in *.
  assert (toks <> []) as Hnil by (rewrite Et; discriminate).
  apply (fun X => storage_eq_trans _ _ _ X (storage_eq_sym _ _ H)).
  unfold getStorage, ofText, newInterval. rewrite Hne. cbn [storage].
  rewrite Ej.
  rewrite (trim_token_text _ (join_head toks Hnil F) (join_last toks Hnil F)).
  assert (exec (parse (join " " toks)) zeroStorage
          = exec (forOf verboseStep (0, false) toks) zeroStorage) as ->.
  { unfold exec at 1.
    assert (join " " toks = natToString k ++ String " " (join " " (w :: rest))) as Ek
      by (rewrite Et; reflexivity).
    rewrite Ek at 1.
    rewrite (parse_units _ _ zeroStorage (natToString_head k) (natToString_digits k)).
    rewrite <- Ek. cbn [snd]. unfold parseVerboseFormat, splitWhitespace.
    rewrite (split_join toks false Hnil F).
    unfold exec, bind, ret.
    destruct (forOf verboseStep (0, false) toks zeroStorage) as [l st']. reflexivity. }
  apply (storage_eq_trans _ _ _ (normalizeStorage_comp _ _ Hs)).
  apply normalizeStorage_fixed; cbn [microseconds].
  - apply Qle_refl.
  - reflexivity.
Qed.

Lemma units_text_round_trip_witness :
  storage_eq (getStorage (ofText "P14M3D"))
             (mkStorage (inject_Z 14) (inject_Z 3) (inject_Z 0))
  /\ (0 <= 14)%Z /\ (0 <= 3)%Z /\ (14 <> 0 \/ 3 <> 0)%Z
  /\ toPostgresString (ofText "P14M3D") = Some "1 year 2 mons 3 days"
  /\ storage_eq (getStorage (ofText "1 year 2 mons 3 days")) (getStorage (ofText "P14M3D")).
Proof.
  assert (storage_eq (getStorage (ofText "P14M3D"))
            (mkStorage (inject_Z 14) (inject_Z 3) (inject_Z 0))) as H
    by (repeat split; reflexivity).
  assert (0 <= 14)%Z as A by (intro X; discriminate X).
  assert (0 <= 3)%Z as B by (intro X; discriminate X).
  assert (14 <> 0 \/ 3 <> 0)%Z as C by (left; intro X; discriminate X).
  split; [exact H|]. split; [exact A|]. split; [exact B|]. split; [exact C|].
  exact (units_text_round_trip (ofText "P14M3D") 14 3 H A B C).
Defined.
